(** * HTTP Public Key Pinning store of libwget (src/libwget/hpkp.c)

    A shallow embedding of the admission engine ([__wget_hpkp_db_add],
    [wget_hpkp_db_add]) and of the persistence codec ([wget_hpkp_db_save],
    [wget_hpkp_db_load]) of libwget's HPKP database, and the properties
    the specification states about them.

    Conventions of the embedding:
    - C integers are [Z]; where the C type is bounded the bound is written
      out.  The data model is LP64: [unsigned int] has 4 bytes,
      [unsigned long] and [time_t] have 8.  The sum of two [time_t] values
      wraps around when it leaves the range, as the machine addition of
      the builds does (C itself leaves the overflow undefined).
    - A store through a pointer to a type that is wider than the object
      pointed to writes past the object; the behaviour is undefined and
      the function that executes the store has no result ([None]).
    - C strings are [string]; a line read from a file may hold a NUL byte,
      and the string functions see the line up to that byte ([c_string]).
      A 32-byte SPKI digest is a [list Z] of [uint8_t] values.
    - The hash map of hosts is a [gmap string wget_hpkp_t]; the vector of
      pins is a [list pin] in insertion order.
    - [time(NULL)] is an input: every function that reads the clock takes
      the value read (or, for the loader, the sequence of values read).
    - Memory management (ownership, [xfree]) is not modelled. *)

From Stdlib Require Import ZArith Lia List String Ascii Bool.
From stdpp Require Import gmap strings list fin_maps.

Local Open Scope Z_scope.

(** ** Result codes *)

(** Modelled from the spec: the [WGET_HPKP_*] result codes are declared in
    [wget.h], which is not among the sources.  [WGET_HPKP_OK] is zero and,
    as the comment above [__wget_hpkp_db_add] says, every other code is
    negative; the codes are pairwise distinct. *)
Definition WGET_HPKP_OK : Z := 0.
Definition WGET_HPKP_ERROR : Z := -1.
Definition WGET_HPKP_ENTRY_EXPIRED : Z := -2.
Definition WGET_HPKP_WAS_DELETED : Z := -3.
Definition WGET_HPKP_NOT_ENOUGH_PINS : Z := -4.
Definition WGET_HPKP_ENTRY_EXISTS : Z := -5.
Definition WGET_HPKP_ERROR_FILE_OPEN : Z := -6.

(** ** Data model *)

(** A pin: the bytes of a SHA-256 digest. *)
Definition pin : Type := list Z.

(** [struct __wget_hpkp_st] *)
Record wget_hpkp_t : Type := mk_hpkp {
  host : string;
  created : Z;               (* time_t *)
  max_age : Z;               (* time_t *)
  include_subdomains : Z;    (* char *)
  pins : list pin            (* wget_vector_t * *)
}.

(** [struct __wget_hpkp_db_st]; the mutex has no sequential content. *)
Record wget_hpkp_db_t : Type := mk_db {
  entries : gmap string wget_hpkp_t
}.

(** [time_t] is a signed 64-bit integer (the loader stores an
    [unsigned long] through a [time_t *]). *)
Definition TIME_T_MIN : Z := - 2 ^ 63.
Definition TIME_T_MAX : Z := 2 ^ 63 - 1.

Definition in_time_t (z : Z) : Prop := TIME_T_MIN <= z <= TIME_T_MAX.

(** The [time_t] that the low 64 bits of [z] stand for. *)
Definition time_t_wrap (z : Z) : Z := (z + 2 ^ 63) mod 2 ^ 64 - 2 ^ 63.

(** [a + b] on [time_t]: the sum of the two 64-bit words.  Out of the
    range of [time_t] the sum wraps around. *)
Definition time_t_add (a b : Z) : Z := time_t_wrap (a + b).

(** ** Pin comparison: [__cmp_pins_cb] *)

(** [p[i]]; the C code reads 32 bytes whatever the buffer holds, the model
    reads 0 past the end of a shorter buffer. *)
Definition byte_at (p : pin) (i : nat) : Z := nth i p 0.

(** The [for] loop of [__cmp_pins_cb]: [i] runs over 0..31 while
    [all_equal] holds. *)
Definition cmp_pins_for (p1 p2 : pin) : bool :=
  fold_left
    (fun (all_equal : bool) (i : nat) =>
       if all_equal
       then (if negb (byte_at p1 i =? byte_at p2 i) then false else all_equal)
       else all_equal)
    (seq 0 32) true.

Definition __cmp_pins_cb (p1 p2 : pin) : Z :=
  if cmp_pins_for p1 p2 then 0 else 1.

(** ** Container primitives *)

(** Modelled from the spec: [wget_vector_size], [wget_vector_contains],
    [wget_vector_browse] and [wget_vector_add_noalloc] belong to libwget's
    vector, which is not among the sources.  Membership uses the vector's
    comparison callback ([__cmp_pins_cb] for every vector of pins); browse
    calls [browse ctx elem] on each element in order and stops at the
    first value that is not zero, which it returns. *)
Definition wget_vector_size {A : Type} (v : list A) : Z := Z.of_nat (length v).

Definition wget_vector_contains (v : list pin) (elem : pin) : bool :=
  existsb (fun e => __cmp_pins_cb elem e =? 0) v.

Fixpoint wget_vector_browse {A C : Type} (v : list A) (browse : C -> A -> Z) (ctx : C) : Z :=
  match v with
  | [] => 0
  | elem :: v' =>
      let ret := browse ctx elem in
      if ret =? 0 then wget_vector_browse v' browse ctx else ret
  end.

Definition wget_vector_add_noalloc {A : Type} (v : list A) (elem : A) : list A :=
  v ++ [elem].

(** Modelled from the spec: [wget_hashmap_get], [wget_hashmap_put_noalloc],
    [wget_hashmap_remove] and [wget_hashmap_size] belong to libwget's hash
    map, which is not among the sources; keys are compared with [strcmp]
    ([__cmp_hpkp_cb]), that is, as strings. *)
Definition wget_hashmap_get (h : gmap string wget_hpkp_t) (key : string) : option wget_hpkp_t :=
  h !! key.

Definition wget_hashmap_put_noalloc (h : gmap string wget_hpkp_t) (key : string) (value : wget_hpkp_t)
  : gmap string wget_hpkp_t :=
  <[key := value]> h.

Definition wget_hashmap_remove (h : gmap string wget_hpkp_t) (key : string) : gmap string wget_hpkp_t :=
  delete key h.

Definition wget_hashmap_size (h : gmap string wget_hpkp_t) : Z := Z.of_nat (size h).

(** ** Construction of entries *)

Definition wget_hpkp_new (host : string) (created max_age include_subdomains : Z) : wget_hpkp_t :=
  {| host := host; created := created; max_age := max_age;
     include_subdomains := include_subdomains; pins := [] |}.

Definition wget_hpkp_db_init : wget_hpkp_db_t := {| entries := ∅ |}.

(** ** Comparison of two pin lists *)

Definition __wget_hpkp_contains_spki_cb (hpkp : wget_hpkp_t) (spki : pin) : Z :=
  if wget_vector_contains (pins hpkp) spki then 0 else 1.

Definition __wget_hpkp_compare_spkis (hpkp1 hpkp2 : wget_hpkp_t) : Z :=
  wget_vector_browse (pins hpkp1) __wget_hpkp_contains_spki_cb hpkp2.

(** ** The admission engine: [__wget_hpkp_db_add] *)

(** [curtime = time(NULL); if (curtime == -1) curtime = 0;] *)
Definition current_time (t : Z) : Z := if t =? -1 then 0 else t.

(** The expiry test
    [hpkp_new->max_age > 0 && (hpkp_new->created + hpkp_new->max_age) < curtime]. *)
Definition entry_expired (curtime : Z) (hpkp_new : wget_hpkp_t) : bool :=
  (max_age hpkp_new >? 0)
  && (time_t_add (created hpkp_new) (max_age hpkp_new) <? curtime).

Definition with_entries (hpkp_db : wget_hpkp_db_t) (h : gmap string wget_hpkp_t) : wget_hpkp_db_t :=
  {| entries := h |}.

(** [t] is the value [time(NULL)] returns.  The result is the return value
    and the database after the call; every call has one ([None] is the
    result of a call whose behaviour is undefined, which the loader has
    and this function has not). *)
Definition __wget_hpkp_db_add (t : Z) (hpkp_db : wget_hpkp_db_t) (hpkp_new : wget_hpkp_t) (excl : bool)
  : option (Z * wget_hpkp_db_t) :=
  let curtime := current_time t in
  if entry_expired curtime hpkp_new then Some (WGET_HPKP_ENTRY_EXPIRED, hpkp_db)
  else
      let num_pins := wget_vector_size (pins hpkp_new) in
      let hpkp := wget_hashmap_get (entries hpkp_db) (host hpkp_new) in
      match hpkp with
      | Some existing =>
          if excl then Some (WGET_HPKP_ENTRY_EXISTS, hpkp_db)
          else if negb (max_age hpkp_new =? 0) && (num_pins >=? 2) then
            if (created existing <? created hpkp_new)
               && (negb (include_subdomains existing =? include_subdomains hpkp_new)
                   || negb (max_age existing =? max_age hpkp_new)
                   || negb (__wget_hpkp_compare_spkis existing hpkp_new =? 0))
            then Some (WGET_HPKP_OK,
                       with_entries hpkp_db
                         (wget_hashmap_put_noalloc (entries hpkp_db) (host hpkp_new) hpkp_new))
            else Some (WGET_HPKP_ENTRY_EXISTS, hpkp_db)
          else if (max_age hpkp_new =? 0) || (num_pins =? 0) then
            Some (WGET_HPKP_WAS_DELETED,
                  with_entries hpkp_db (wget_hashmap_remove (entries hpkp_db) (host existing)))
          else if num_pins <? 2 then Some (WGET_HPKP_NOT_ENOUGH_PINS, hpkp_db)
          else Some (WGET_HPKP_ERROR, hpkp_db)
      | None =>
          if negb (max_age hpkp_new =? 0) && (num_pins >=? 2) then
            Some (WGET_HPKP_OK,
                  with_entries hpkp_db
                    (wget_hashmap_put_noalloc (entries hpkp_db) (host hpkp_new) hpkp_new))
          else if num_pins <? 2 then Some (WGET_HPKP_NOT_ENOUGH_PINS, hpkp_db)
          else Some (WGET_HPKP_ERROR, hpkp_db)
      end.

(** ** External collaborators *)

(** [wget_iri_t], as far as the loader reads it. *)
Record wget_iri_t : Type := mk_iri {
  iri_host : string;
  is_ip_address : bool
}.

(** Modelled from the spec: the IRI parser, the base64 codec and the
    traversal order of the hash map are external collaborators with a
    narrow contract; their code is not among the sources.  They are taken
    as parameters: [wget_iri_parse] answers [None] for a host it rejects,
    the base64 functions map 32 bytes to text and text to bytes, and
    [wget_hashmap_order] lists the bindings of a map in the order in which
    [wget_hashmap_browse] visits them. *)
Class Collaborators : Type := {
  wget_iri_parse : string -> option wget_iri_t;
  wget_base64_decode_alloc : string -> pin;
  wget_base64_encode_alloc : pin -> string;
  wget_hashmap_order : gmap string wget_hpkp_t -> list (string * wget_hpkp_t)
}.

(** The order of traversal is some enumeration of the bindings. *)
Definition browse_order_ok `{Collaborators} (h : gmap string wget_hpkp_t) : Prop :=
  Permutation (wget_hashmap_order h) (map_to_list h).

Section Codec.
Context `{Collaborators}.

(** ** The public entry point: [wget_hpkp_db_add] *)

(** Returns the return value and the entry after the call. *)
Definition __wget_hpkp_db_put_base64_spki (hpkp : wget_hpkp_t) (b64_pubkey : string)
  : Z * wget_hpkp_t :=
  let pubkey := wget_base64_decode_alloc b64_pubkey in
  if negb (wget_vector_contains (pins hpkp) pubkey) then
    (0, {| host := host hpkp; created := created hpkp; max_age := max_age hpkp;
           include_subdomains := include_subdomains hpkp;
           pins := wget_vector_add_noalloc (pins hpkp) pubkey |})
  else (0, hpkp).

(** [wget_vector_browse] with a callback that updates its context. *)
Fixpoint wget_vector_browse_ctx {A C : Type} (v : list A) (browse : C -> A -> Z * C) (ctx : C)
  : Z * C :=
  match v with
  | [] => (0, ctx)
  | elem :: v' =>
      let '(ret, ctx') := browse ctx elem in
      if ret =? 0 then wget_vector_browse_ctx v' browse ctx' else (ret, ctx')
  end.

(** [t0] is the clock read by [wget_hpkp_db_add] itself, [t1] the one read
    by [__wget_hpkp_db_add].  [None] as a database, host or list of pins
    is the null pointer. *)
Definition wget_hpkp_db_add (t0 t1 : Z) (hpkp_db : option wget_hpkp_db_t) (host : option string)
    (max_age include_subdomains : Z) (b64_pins : option (list string))
  : option (Z * option wget_hpkp_db_t) :=
  match hpkp_db, host, b64_pins with
  | Some db, Some host, Some b64_pins =>
      let cur_time := current_time t0 in
      let hpkp := wget_hpkp_new host cur_time max_age include_subdomains in
      let hpkp := snd (wget_vector_browse_ctx b64_pins __wget_hpkp_db_put_base64_spki hpkp) in
      match __wget_hpkp_db_add t1 db hpkp false with
      | Some (retval, db') => Some (retval, Some db')
      | None => None
      end
  | _, _, _ => Some (WGET_HPKP_ERROR, hpkp_db)
  end.

(** ** Characters and numbers of the text format *)

Definition char_code (c : ascii) : Z := Z.of_nat (nat_of_ascii c).

(** The macro [isspace] of the source: blank and tab only. *)
Definition isspace (c : ascii) : bool := (char_code c =? 32) || (char_code c =? 9).

(** The white space [sscanf] skips: blank, and tab to carriage return. *)
Definition scanf_isspace (c : ascii) : bool :=
  (char_code c =? 32) || ((9 <=? char_code c) && (char_code c <=? 13)).

Definition isdigit (c : ascii) : bool := (48 <=? char_code c) && (char_code c <=? 57).

Definition strlen (s : string) : Z := Z.of_nat (String.length s).

Definition ULONG_MAX : Z := 2 ^ 64 - 1.

(** [strtoul(dst, NULL, 10)] on a string of digits: the value, or
    [ULONG_MAX] when it does not fit. *)
Fixpoint digits_value (acc : Z) (dst : string) : Z :=
  match dst with
  | EmptyString => acc
  | String c dst' => digits_value (acc * 10 + (char_code c - 48)) dst'
  end.

Definition strtoul (dst : string) : Z := Z.min (digits_value 0 dst) ULONG_MAX.

(** The sizes of the types the parser stores through, in bytes. *)
Definition sizeof_unsigned_int : Z := 4.
Definition sizeof_unsigned_long : Z := 8.
Definition sizeof_time_t : Z := 8.

(** The store of the [unsigned long] [u] through a pointer that has been
    cast to a pointer to [unsigned long] and points to an object of
    [size] bytes: the 8 bytes of [u] are written at the address.
    [Some u] when they lie within the object; [None] when the store runs
    past the end of the object, which is undefined behaviour. *)
Definition store_ulong (size : Z) (u : Z) : option Z :=
  if sizeof_unsigned_long <=? size then Some u else None.

(** An [unsigned long] stored through a [time_t *] and read as a
    [time_t]: the two types have the same size. *)
Definition time_t_of_ulong (u : Z) : Z := if u <=? TIME_T_MAX then u else u - 2 ^ 64.

(** The [unsigned int] read at the address at which an [unsigned long]
    has been stored: its low half (the bytes are in little-endian
    order). *)
Definition uint_at_ulong (u : Z) : Z := u mod 2 ^ 32.

(** [printf] with [%lu] and [%u]: decimal digits, no sign, no leading
    zero.  [print_digits] produces the digits of [n] in front of [acc]. *)
Fixpoint print_digits (fuel : nat) (n : Z) (acc : string) : string :=
  match fuel with
  | O => acc
  | S fuel' =>
      let acc' := String (ascii_of_nat (Z.to_nat (48 + n mod 10))) acc in
      if n <? 10 then acc' else print_digits fuel' (n / 10) acc'
  end.

Definition print_decimal (n : Z) : string := print_digits 20 n EmptyString.

Definition printf_lu (z : Z) : string := print_decimal (z mod 2 ^ 64).
Definition printf_u (z : Z) : string := print_decimal (z mod 2 ^ 32).

(** ** The serializer: [wget_hpkp_db_save] *)

Definition TAB : string := String (ascii_of_nat 9) EmptyString.
Definition NL : string := String (ascii_of_nat 10) EmptyString.

(** The file types [st_mode] can hold, as far as the code tells them
    apart.  The code calls [stat], which follows symbolic links and
    reports the type of the file a link leads to: a call of [stat] that
    succeeds does not report [S_IFLNK].  The type keeps the value because
    the code tests for it. *)
Inductive file_kind : Type := S_IFREG | S_IFLNK | S_IFOTHER.

Definition S_ISREG (k : file_kind) : bool := match k with S_IFREG => true | _ => false end.
Definition S_ISLNK (k : file_kind) : bool := match k with S_IFLNK => true | _ => false end.

(** What a call does to the file system.  [FsUnlinkFullpath target] is
    [unlink(fullpath)] after [readlink] has copied [target] into the
    buffer [fullpath]: [readlink] writes no terminator and the code sets
    only the last byte of the buffer, so the path removed is [target]
    followed by the bytes the buffer happened to hold, up to the first
    NUL byte among them. *)
Inductive fs_action : Type :=
| FsUnlink (path : string)
| FsUnlinkFullpath (target : string)
| FsWrite (path : string) (content : string).

(** [struct browser_ctx]: the text written so far and the count of pins. *)
Record browser_ctx : Type := mk_bctx {
  fp : string;
  written_pins : Z
}.

(** Appends to the stream; always returns 0 (an element is never null). *)
Definition __vector_browse_cb (fp : string) (elem : pin) : Z * string :=
  let b64_hash := wget_base64_encode_alloc elem in
  (0, fp ++ "sha-256" ++ TAB ++ b64_hash ++ NL)%string.

Definition __hashtable_browse_cb (bctx : browser_ctx) (key : string) (value : wget_hpkp_t)
  : Z * browser_ctx :=
  let num_pins := wget_vector_size (pins value) in
  if num_pins >? 0 then
    let fp1 := (fp bctx ++ key ++ TAB ++ printf_lu (created value) ++ TAB
                 ++ printf_lu (max_age value) ++ TAB
                 ++ printf_u (include_subdomains value) ++ TAB
                 ++ printf_u num_pins ++ NL)%string in
    let '(ret, fp2) := wget_vector_browse_ctx (pins value) __vector_browse_cb fp1 in
    if ret =? 0
    then (0, {| fp := fp2; written_pins := (written_pins bctx + num_pins) mod 2 ^ 32 |})
    else (-1, {| fp := fp2; written_pins := written_pins bctx |})
  else (-1, bctx).

(** Modelled from the spec: [wget_hashmap_browse] belongs to libwget's
    hash map; it visits every binding, in the order [wget_hashmap_order]
    gives, and the traversal continues after an entry that fails. *)
Definition wget_hashmap_browse (h : gmap string wget_hpkp_t)
    (browse : browser_ctx -> string -> wget_hpkp_t -> Z * browser_ctx) (ctx : browser_ctx)
  : browser_ctx :=
  fold_left (fun c kv => snd (browse c (fst kv) (snd kv))) (wget_hashmap_order h) ctx.

Definition save_header : string :=
  ("# HTTP Public Key Pinning database (RFC 7469)" ++ NL
   ++ "# Generated by wget2" ++ NL
   ++ "# MODIFY AT YOUR OWN RISK" ++ NL
   ++ "version 1" ++ NL)%string.

(** [unsigned int] to [int]. *)
Definition int_of_uint (u : Z) : Z := if u <? 2 ^ 31 then u else u - 2 ^ 32.

(** [stat_result] is what [stat(filename)] answers ([None]: it failed),
    [readlink_result] the bytes [readlink] copies into its buffer (none
    when it fails), [fopen_ok] whether [fopen(filename, "w")] succeeds.
    The result is the return value and what the call did to the file
    system. *)
Definition wget_hpkp_db_save (stat_result : option file_kind) (readlink_result : string)
    (fopen_ok : bool) (filename : option string) (hpkp_db : option wget_hpkp_db_t)
  : Z * list fs_action :=
  match filename, hpkp_db with
  | Some filename, Some db =>
      if String.eqb filename EmptyString then (WGET_HPKP_ERROR, [])
      else
        let bctx := {| fp := EmptyString; written_pins := 0 |} in
        let irregular :=                 (* retval == 0 && !S_ISREG && !S_ISLNK *)
          match stat_result with
          | Some st_mode => negb (S_ISREG st_mode) && negb (S_ISLNK st_mode)
          | None => false
          end in
        if irregular then (int_of_uint (written_pins bctx), [])          (* goto end *)
        else if wget_hashmap_size (entries db) =? 0 then
          (int_of_uint (written_pins bctx),
           match stat_result with
           | Some st_mode =>
               if S_ISLNK st_mode then [FsUnlinkFullpath readlink_result]
               else [FsUnlink filename]
           | None => []
           end)                                                         (* goto end *)
        else if negb fopen_ok then (WGET_HPKP_ERROR_FILE_OPEN, [])
        else
          let bctx := wget_hashmap_browse (entries db) __hashtable_browse_cb
                        {| fp := save_header; written_pins := written_pins bctx |} in
          (int_of_uint (written_pins bctx), [FsWrite filename (fp bctx)])
  | _, _ => (WGET_HPKP_ERROR, [])
  end.

(** ** The parser: tokens *)

Fixpoint string_skip (n : nat) (s : string) : string :=
  match n, s with
  | O, _ => s
  | S n', String _ s' => string_skip n' s'
  | S _, EmptyString => EmptyString
  end.

(** [sscanf] skipping white space. *)
Fixpoint scanf_skip_space (s : string) : string :=
  match s with
  | String c s' => if scanf_isspace c then scanf_skip_space s' else s
  | EmptyString => EmptyString
  end.

(** The run of characters a [%s] directive reads, and what follows it. *)
Fixpoint scanf_token (s : string) : string * string :=
  match s with
  | String c s' =>
      if scanf_isspace c then (EmptyString, s)
      else let '(tok, rest) := scanf_token s' in (String c tok, rest)
  | EmptyString => (EmptyString, EmptyString)
  end.

(** [sscanf(str, "%ms", out)]: [Some out] when it returns 1. *)
Definition sscanf_ms (str : string) : option string :=
  let '(tok, _) := scanf_token (scanf_skip_space str) in
  if String.eqb tok EmptyString then None else Some tok.

(** [sscanf(line, "%s\t%ms", magic, out)]: [Some (magic, out)] when it
    returns 2. *)
Definition sscanf_s_ms (line : string) : option (string * string) :=
  let '(magic, rest) := scanf_token (scanf_skip_space line) in
  if String.eqb magic EmptyString then None
  else
    let '(tok, _) := scanf_token (scanf_skip_space rest) in
    if String.eqb tok EmptyString then None else Some (magic, tok).

(** The character [*str] points to is blank, tab or the end of the string. *)
Definition at_space_or_end (str : string) : bool :=
  match str with
  | String c _ => isspace c
  | EmptyString => true
  end.

(** The functions below take the string [*str] points to and return, on
    success, what they stored through [out] and the string [*str] points
    to afterwards; [None] is the return value 0. *)
Definition __parse_hostname (str : string) (len : Z) : option (string * string) :=
  match sscanf_ms str with
  | None => None
  | Some out =>
      let str' := string_skip (String.length out) str in
      if at_space_or_end str' then Some (out, str') else None
  end.

(** Returns the return value and the string [*str] points to afterwards. *)
Fixpoint __next_token (str : string) : bool * string :=
  match str with
  | String c str' => if negb (isspace c) then (true, str) else __next_token str'
  | EmptyString => (false, EmptyString)
  end.

(** The [for] loop of [__parse_number_unsigned]; [n] bounds the iterations
    left ([len - i]), [dst] holds the digits copied so far.  [None]: a
    character that is neither a digit nor white space. *)
Fixpoint parse_number_for (n : nat) (str : string) (dst : string) : option (string * string) :=
  match n with
  | O => Some (dst, str)
  | S n' =>
      match str with
      | EmptyString => Some (dst, str)
      | String c str' =>
          if isdigit c then parse_number_for n' str' (dst ++ String c EmptyString)
          else if isspace c then Some (dst, str)
          else None
      end
  end.

Definition __parse_number_unsigned (str : string) (len : Z) : option (Z * string) :=
  match parse_number_for (Z.to_nat len) str EmptyString with
  | None => None
  | Some (dst, str') =>
      match dst with
      | EmptyString => None                                  (* i == 0 *)
      | String d0 dst' =>
          if (char_code d0 =? 48) && negb (String.eqb dst' EmptyString)
          then None                                          (* dst[0] == '0' && i > 1 *)
          else Some (strtoul dst, str')
      end
  end.

Definition __parse_digit (str : string) : option (Z * string) :=
  match str with
  | String c str' => if isdigit c then Some (char_code c - 48, str') else None
  | EmptyString => None
  end.

(** What [__wget_hpkp_parse_host_line] has stored through its out
    parameters when it returns after the store through [num_pins], and
    the value it returns.  [hl_num_pins] is the [unsigned long] the
    function stores through [num_pins] cast to a pointer to
    [unsigned long], all 8 bytes of it, although [num_pins] points to an
    [unsigned int]. *)
Record host_line : Type := mk_host_line {
  hl_host : string;
  hl_created : Z;
  hl_max_age : Z;
  hl_include_subdomains : Z;
  hl_num_pins : Z;
  hl_retval : Z
}.

(** [next_token && parser]: the parser runs only after a token is found. *)
Definition token_then {A : Type} (parser : string -> option (A * string)) (line : string)
  : option (A * string) :=
  let '(found, line') := __next_token line in
  if found then parser line' else None.

(** [None] is the return value -1 on a path that ends before the store
    through [num_pins]: the host, [created], [max_age] or the flag does
    not parse, or no number follows the flag.  Otherwise the function
    stores the number of pins and only then looks at it: [Some hl] holds
    what has been stored and the return value, 0 when the [unsigned int]
    read back at [num_pins] is positive and -1 when it is zero.  The
    stores through [created] and [max_age] are within their objects
    ([sizeof_time_t] is [sizeof_unsigned_long]); whether the store through
    [num_pins] is within its object is for the caller's object to tell,
    see [load_iteration]. *)
Definition __wget_hpkp_parse_host_line (line : string) (len : Z) : option host_line :=
  match __parse_hostname line len with
  | None => None
  | Some (host_out, line) =>
      match wget_iri_parse host_out with
      | None => None
      | Some iri =>
          if is_ip_address iri then None
          else
            match token_then (fun s => __parse_number_unsigned s len) line with
            | None => None
            | Some (created, line) =>
                match token_then (fun s => __parse_number_unsigned s len) line with
                | None => None
                | Some (max_age, line) =>
                    match token_then __parse_digit line with
                    | None => None
                    | Some (include_subdomains, line) =>
                        if include_subdomains >? 1 then None
                        else
                          match token_then (fun s => __parse_number_unsigned s len) line with
                          | None => None
                          | Some (num_pins, line) =>
                              Some {| hl_host := host_out;
                                      hl_created := time_t_of_ulong created;
                                      hl_max_age := time_t_of_ulong max_age;
                                      hl_include_subdomains := include_subdomains;
                                      hl_num_pins := num_pins;
                                      hl_retval :=
                                        if uint_at_ulong num_pins >? 0 then 0 else -1 |}
                          end
                    end
                end
            end
      end
  end.

(** [Some b64_pin] is the return value 0, [None] the return value -1. *)
Definition __wget_hpkp_parse_pin_line (line : string) (len : Z) : option string :=
  match sscanf_s_ms line with
  | None => None
  | Some (sha256_magic, b64_pin) =>
      if negb (String.eqb sha256_magic "sha-256") then None else Some b64_pin
  end.

(** ** The parser: [wget_hpkp_db_load] *)

(** Modelled from the spec: [wget_getline] is libwget's buffered line
    reader, not among the sources.  It returns the next line without its
    newline, and a negative length at the end of the file.  [file_lines]
    is the sequence of lines it returns on a file with the given content;
    an open stream is the list of lines still to be read. *)
Fixpoint file_lines_from (cur : string) (content : string) : list string :=
  match content with
  | EmptyString => if String.eqb cur EmptyString then [] else [cur]
  | String c content' =>
      if char_code c =? 10 then cur :: file_lines_from EmptyString content'
      else file_lines_from (cur ++ String c EmptyString) content'
  end.

Definition file_lines (content : string) : list string := file_lines_from EmptyString content.

(** The C string at the start of a buffer: the bytes before the first
    NUL byte.  [wget_strcmp], [sscanf] and the loops over [**str] read a
    line up to there. *)
Fixpoint c_string (buf : string) : string :=
  match buf with
  | String c buf' => if char_code c =? 0 then EmptyString else String c (c_string buf')
  | EmptyString => EmptyString
  end.

(** The inner [for] loop over the pin lines of a record.  The result is
    the candidate with its pins ([None] after the error exits, which set
    [retval = WGET_HPKP_ERROR] and [should_continue = 0]) and the stream. *)
Fixpoint load_pins (stream : list string) (pin num_pins : Z) (hpkp : wget_hpkp_t)
  : option wget_hpkp_t * list string :=
  if pin <? num_pins then
    match stream with
    | [] => (None, stream)
    | buf :: stream' =>
        match __wget_hpkp_parse_pin_line (c_string buf) (strlen buf) with
        | None => (None, stream')
        | Some b64_pin =>
            load_pins stream' (pin + 1) num_pins
              (snd (__wget_hpkp_db_put_base64_spki hpkp b64_pin))
        end
    end
  else (Some hpkp, stream).

(** The local variables of [wget_hpkp_db_load] that live across the
    iterations of its loop, the database, and the number of times the
    clock has been read. *)
Record load_state : Type := mk_load_state {
  ls_retval : Z;
  ls_version : Z;
  ls_db : wget_hpkp_db_t;
  ls_ticks : nat
}.

Definition load_fail (st : load_state) : load_state :=
  {| ls_retval := WGET_HPKP_ERROR; ls_version := ls_version st;
     ls_db := ls_db st; ls_ticks := ls_ticks st |}.

Definition first_char_is (buf : string) (code : Z) : bool :=
  match buf with
  | String c _ => char_code c =? code
  | EmptyString => false
  end.

(** One iteration of the [do ... while (should_continue)] loop: the state
    and the stream after it, and [should_continue].  [clock k] is the
    value the [k]-th reading of the clock returns.

    The local [num_pins] is an [unsigned int], and
    [__wget_hpkp_parse_host_line] is given its address: a host line that
    parses as far as the number of pins makes the callee store 8 bytes
    into this object of 4 ([store_ulong sizeof_unsigned_int]).  From there
    on the behaviour is undefined and the iteration has no result
    ([None]); what the bytes behind [num_pins] belong to (another local,
    the pointer [buf]) depends on how the frame is laid out.  The rest of
    the body is embedded as it is written. *)
Definition load_iteration (clock : nat -> Z) (st : load_state) (stream : list string)
  : option (load_state * list string * bool) :=
  match stream with
  | [] => Some (st, stream, false)                              (* buflen < 0 *)
  | buf :: stream1 =>
      if first_char_is buf 35 then Some (st, stream1, true)     (* buf[0] == '#' *)
      else if ls_version st =? 0 then
        if negb (String.eqb (c_string buf) "version 1")
        then Some (load_fail st, stream1, false)
        else Some ({| ls_retval := ls_retval st; ls_version := 1;
                      ls_db := ls_db st; ls_ticks := ls_ticks st |}, stream1, true)
      else
        match __wget_hpkp_parse_host_line (c_string buf) (strlen buf) with
        | None => Some (load_fail st, stream1, false)           (* retval == -1 *)
        | Some hl =>
            match store_ulong sizeof_unsigned_int (hl_num_pins hl) with
            | None => None                                      (* past the end of num_pins *)
            | Some stored =>
                if hl_retval hl =? -1 then Some (load_fail st, stream1, false)
                else
                  let num_pins := uint_at_ulong stored in
                  let hpkp := wget_hpkp_new (hl_host hl) (hl_created hl) (hl_max_age hl)
                                (hl_include_subdomains hl) in
                  match load_pins stream1 0 num_pins hpkp with
                  | (None, stream2) => Some (load_fail st, stream2, false)
                  | (Some hpkp, stream2) =>
                      match __wget_hpkp_db_add (clock (ls_ticks st)) (ls_db st) hpkp true with
                      | None => None
                      | Some (_, db') =>
                          Some ({| ls_retval := 0; ls_version := ls_version st;
                                   ls_db := db'; ls_ticks := S (ls_ticks st) |}, stream2, true)
                      end
                  end
            end
        end
  end.

(** What the loop of the loader comes to. *)
Inductive load_outcome : Type :=
| LoadReturned (st : load_state)
| LoadUndefined
| LoadOutOfFuel.

(** The loop; every iteration that continues has read a line, so
    [S (length stream)] iterations suffice (see [load_loop_fuel]). *)
Fixpoint load_loop (fuel : nat) (clock : nat -> Z) (st : load_state) (stream : list string)
  : load_outcome :=
  match fuel with
  | O => LoadOutOfFuel
  | S fuel' =>
      match load_iteration clock st stream with
      | None => LoadUndefined
      | Some (st', stream', should_continue) =>
          if should_continue then load_loop fuel' clock st' stream' else LoadReturned st'
      end
  end.

(** The loop with the iterations its stream allows. *)
Definition load_run (clock : nat -> Z) (st : load_state) (stream : list string) : load_outcome :=
  load_loop (S (length stream)) clock st stream.

(** The state in which [wget_hpkp_db_load] enters its loop. *)
Definition load_start (db : wget_hpkp_db_t) : load_state :=
  {| ls_retval := 0; ls_version := 0; ls_db := db; ls_ticks := O |}.

(** [file] is the content [fopen(filename, "r")] gives access to ([None]:
    the file cannot be opened).  The result is the return value and the
    database after the call; [None] when the behaviour is undefined. *)
Definition wget_hpkp_db_load (clock : nat -> Z) (file : option string)
    (filename : option string) (hpkp_db : option wget_hpkp_db_t)
  : option (Z * option wget_hpkp_db_t) :=
  match filename, hpkp_db with
  | Some filename, Some db =>
      if String.eqb filename EmptyString then Some (WGET_HPKP_ERROR, hpkp_db)
      else
        match file with
        | None => Some (WGET_HPKP_ERROR_FILE_OPEN, hpkp_db)
        | Some content =>
            let stream := file_lines content in
            match load_run clock (load_start db) stream with
            | LoadReturned st =>
                Some (if ls_retval st =? 0 then WGET_HPKP_OK else ls_retval st,
                      Some (ls_db st))
            | LoadUndefined | LoadOutOfFuel => None
            end
        end
  | _, _ => Some (WGET_HPKP_ERROR, hpkp_db)
  end.

(** The state after the version line. *)
Definition after_version (st : load_state) : load_state :=
  {| ls_retval := ls_retval st; ls_version := 1; ls_db := ls_db st; ls_ticks := ls_ticks st |}.

(** On the line [buf], read where a record is due,
    [__wget_hpkp_parse_host_line] gets as far as the store through
    [num_pins]. *)
Definition stores_num_pins (buf : string) : Prop :=
  is_Some (__wget_hpkp_parse_host_line (c_string buf) (strlen buf)).

End Codec.

(** ** A reference instance of the collaborators

    Standard base64 (RFC 4648, with padding), a host check that rejects
    the empty string and flags dotted-decimal literals, and the traversal
    order of [map_to_list].  It serves to run the model on concrete
    stores and files. *)

Definition b64_alphabet : list ascii :=
  list_ascii_of_string "ABCDEFGHIJKLMNOPQRSTUVWXYZabcdefghijklmnopqrstuvwxyz0123456789+/".

Definition b64_char (n : Z) : ascii := nth (Z.to_nat n) b64_alphabet "="%char.

Fixpoint b64_index_from (i : Z) (alphabet : list ascii) (c : ascii) : option Z :=
  match alphabet with
  | [] => None
  | a :: alphabet' => if Ascii.eqb a c then Some i else b64_index_from (i + 1) alphabet' c
  end.

Definition b64_index (c : ascii) : option Z := b64_index_from 0 b64_alphabet c.

Fixpoint base64_encode (l : list Z) : string :=
  match l with
  | a :: b :: c :: l' =>
      String (b64_char (a / 4))
        (String (b64_char ((a mod 4) * 16 + b / 16))
           (String (b64_char ((b mod 16) * 4 + c / 64))
              (String (b64_char (c mod 64)) (base64_encode l'))))
  | [a; b] =>
      String (b64_char (a / 4))
        (String (b64_char ((a mod 4) * 16 + b / 16))
           (String (b64_char ((b mod 16) * 4)) "="))
  | [a] =>
      String (b64_char (a / 4)) (String (b64_char ((a mod 4) * 16)) "==")
  | [] => EmptyString
  end.

Fixpoint base64_sextets (s : string) : list Z :=
  match s with
  | String c s' =>
      match b64_index c with
      | Some v => v :: base64_sextets s'
      | None => []
      end
  | EmptyString => []
  end.

Fixpoint base64_bytes (l : list Z) : list Z :=
  match l with
  | a :: b :: c :: d :: l' =>
      (a * 4 + b / 16) :: ((b mod 16) * 16 + c / 4) :: ((c mod 4) * 64 + d) :: base64_bytes l'
  | [a; b; c] => [a * 4 + b / 16; (b mod 16) * 16 + c / 4]
  | [a; b] => [a * 4 + b / 16]
  | _ => []
  end.

Definition base64_decode (s : string) : pin := base64_bytes (base64_sextets s).

Fixpoint dotted_decimal (s : string) : bool :=
  match s with
  | String c s' =>
      (((48 <=? Z.of_nat (nat_of_ascii c)) && (Z.of_nat (nat_of_ascii c) <=? 57))
       || (Z.of_nat (nat_of_ascii c) =? 46)) && dotted_decimal s'
  | EmptyString => true
  end.

Definition reference_iri_parse (h : string) : option wget_iri_t :=
  if String.eqb h EmptyString then None
  else Some {| iri_host := h; is_ip_address := dotted_decimal h |}.

Definition reference_collaborators : Collaborators :=
  {| wget_iri_parse := reference_iri_parse;
     wget_base64_decode_alloc := base64_decode;
     wget_base64_encode_alloc := base64_encode;
     wget_hashmap_order := map_to_list |}.

(** ** Sample data *)

Definition sample_pin (b : Z) : pin := map (fun i => (b + Z.of_nat i) mod 256) (seq 0 32).

Definition pin_A : pin := sample_pin 1.
Definition pin_B : pin := sample_pin 77.
Definition pin_C : pin := sample_pin 130.
Definition pin_D : pin := sample_pin 250.

Definition sample_entry (h : string) (c m i : Z) (ps : list pin) : wget_hpkp_t :=
  {| host := h; created := c; max_age := m; include_subdomains := i; pins := ps |}.

(** ** Predicates used in the statements *)

(** Every pin of the entry is a 32-byte digest. *)
Definition well_formed_pins (h : wget_hpkp_t) : Prop :=
  Forall (fun p : pin => length p = 32%nat) (pins h).

(** The candidate is not expired at [now]: when [max_age > 0], the sum
    [created + max_age] is a [time_t] and is not before [now]. *)
Definition not_expired (now : Z) (h : wget_hpkp_t) : Prop :=
  max_age h > 0 -> in_time_t (created h + max_age h) /\ now <= created h + max_age h.

(** Every entry is stored under its own host (the key of the hash map is
    the [host] field of the value). *)
Definition db_consistent (db : wget_hpkp_db_t) : Prop :=
  forall k e, entries db !! k = Some e -> host e = k.

(** The condition of an update in the words of the specification: the pin
    test is [subset_of(candidate, existing)]. *)
Definition spec_update_condition (existing candidate : wget_hpkp_t) : Prop :=
  created existing < created candidate
  /\ (include_subdomains existing <> include_subdomains candidate
      \/ max_age existing <> max_age candidate
      \/ ~ (pins candidate ⊆ pins existing)).

Definition replaced (db : wget_hpkp_db_t) (candidate : wget_hpkp_t) : wget_hpkp_db_t :=
  {| entries := <[host candidate := candidate]> (entries db) |}.

(** ** Text that survives the codec *)

(** No character of the string is white space to [sscanf]. *)
Fixpoint no_space (s : string) : bool :=
  match s with
  | String c s' => negb (scanf_isspace c) && no_space s'
  | EmptyString => true
  end.

(** A host the loader reads back from a host line: a token that is not
    empty, holds no white space, does not look like a comment, and that
    the IRI parser accepts as a name, not an IP literal. *)
Definition host_token `{Collaborators} (h : string) : Prop :=
  h <> EmptyString /\ no_space h = true /\ first_char_is h 35 = false
  /\ exists iri, wget_iri_parse h = Some iri /\ is_ip_address iri = false.

(** The lines the serializer writes for an entry stored under [key]. *)
Definition host_line_text (key : string) (e : wget_hpkp_t) : string :=
  (key ++ TAB ++ printf_lu (created e) ++ TAB ++ printf_lu (max_age e) ++ TAB
   ++ printf_u (include_subdomains e) ++ TAB
   ++ printf_u (wget_vector_size (pins e)))%string.

Definition pin_line_text `{Collaborators} (p : pin) : string :=
  ("sha-256" ++ TAB ++ wget_base64_encode_alloc p)%string.

Definition record_lines `{Collaborators} (key : string) (e : wget_hpkp_t) : list string :=
  host_line_text key e :: map pin_line_text (pins e).

Definition header_lines : list string :=
  ["# HTTP Public Key Pinning database (RFC 7469)"%string;
   "# Generated by wget2"%string;
   "# MODIFY AT YOUR OWN RISK"%string;
   "version 1"%string].

(** The text of a list of lines, each closed by a newline. *)
Fixpoint unlines (ls : list string) : string :=
  match ls with
  | [] => EmptyString
  | l :: ls' => (l ++ NL ++ unlines ls')%string
  end.

Fixpoint no_newline (s : string) : bool :=
  match s with
  | String c s' => negb (char_code c =? 10) && no_newline s'
  | EmptyString => true
  end.

Fixpoint all_digits (s : string) : bool :=
  match s with
  | String c s' => isdigit c && all_digits s'
  | EmptyString => true
  end.

(** The store that holds the two entries, each under its host. *)
Definition store_of_two (e1 e2 : wget_hpkp_t) : wget_hpkp_db_t :=
  {| entries := <[host e1 := e1]> (<[host e2 := e2]> ∅) |}.

(** What follows a token: the end of the string or white space. *)
Definition token_end (rest : string) : bool :=
  match rest with
  | String c _ => scanf_isspace c
  | EmptyString => true
  end.

(** The character of a decimal digit. *)
Definition digit_char (r : Z) : ascii := ascii_of_nat (Z.to_nat (48 + r)).

(** The total of the pins of the entries of a traversal. *)
Definition total_pins (kvs : list (string * wget_hpkp_t)) : Z :=
  fold_right (fun kv n => wget_vector_size (pins (snd kv)) + n) 0 kvs.

(** ** Sample stores and files *)

Definition entry_1 : wget_hpkp_t := sample_entry "example.com" 1000 5000 0 [pin_A; pin_B].
Definition entry_2 : wget_hpkp_t := sample_entry "www.gnu.org" 1200 9000 1 [pin_C; pin_D].

(** The host of [entry_1] again, with other fields and other pins. *)
Definition entry_1_again : wget_hpkp_t := sample_entry "example.com" 1500 7000 1 [pin_A; pin_C].

(** The pins of [entry_1] and one more, stamped later. *)
Definition entry_1_grown : wget_hpkp_t :=
  sample_entry "example.com" 2000 5000 0 [pin_A; pin_B; pin_C].

(** The pins of [entry_1_grown] but one, stamped later still. *)
Definition entry_1_shrunk : wget_hpkp_t :=
  sample_entry "example.com" 2500 5000 0 [pin_A; pin_B].

(** A request to delete the entry of the host of [entry_1]. *)
Definition entry_1_delete : wget_hpkp_t := sample_entry "example.com" 2000 0 0 [pin_A; pin_B].

(** An entry that is out of date at 2000, and one with a single pin. *)
Definition entry_old : wget_hpkp_t := sample_entry "old.example.org" 1000 100 0 [pin_A; pin_B].
Definition entry_one_pin : wget_hpkp_t := sample_entry "one.example.org" 1000 5000 0 [pin_A].

Definition sample_clock : nat -> Z := fun _ => 2000.

Definition store_1 : wget_hpkp_db_t := replaced wget_hpkp_db_init entry_1.

Definition sample_file (records : list wget_hpkp_t) (tail : list string) : string :=
  unlines (header_lines
           ++ concat (map (fun e => @record_lines reference_collaborators (host e) e) records)
           ++ tail).

(** Two records for the same host. *)
Definition file_duplicate : string := sample_file [entry_1; entry_1_again] [].

(** Three records that the admission turns down when [entry_1] is
    resident: out of date, a single pin, a host already present. *)
Definition file_rejected : string := sample_file [entry_old; entry_one_pin; entry_1_again] [].

(** Two good records and a line that is no record. *)
Definition file_broken : string := sample_file [entry_1; entry_2] ["not a record"%string].

(** ** The callbacks of the hash map *)

(** No character of the string is the terminator of a C string. *)
Fixpoint no_nul (s : string) : bool :=
  match s with
  | String c s' => negb (char_code c =? 0) && no_nul s'
  | EmptyString => true
  end.



(** [strcmp]: the difference of the first two bytes that differ, the end
    of a string counting as the byte 0. *)
Fixpoint strcmp (s1 s2 : string) : Z :=
  match s1, s2 with
  | EmptyString, EmptyString => 0
  | EmptyString, String c2 _ => - char_code c2
  | String c1 _, EmptyString => char_code c1
  | String c1 s1', String c2 s2' =>
      if char_code c1 =? char_code c2 then
        (if char_code c1 =? 0 then 0 else strcmp s1' s2')
      else char_code c1 - char_code c2
  end.

Definition __cmp_hpkp_cb (h1 h2 : string) : Z := strcmp h1 h2.

(** ** Invariants of the store *)

(** Every resident entry has [max_age <> 0] and at least two pins. *)
Definition residents_valid (db : wget_hpkp_db_t) : Prop :=
  forall k e, entries db !! k = Some e -> max_age e <> 0 /\ (2 <= length (pins e))%nat.

(** Every entry of the first store is an entry of the second. *)
Definition store_included (db db' : wget_hpkp_db_t) : Prop :=
  forall k e, entries db !! k = Some e -> entries db' !! k = Some e.

(** The candidate [wget_hpkp_db_add] builds from its arguments. *)
Definition candidate_of `{Collaborators} (now : Z) (h : string) (age incl : Z)
    (b64_pins : list string) : wget_hpkp_t :=
  snd (wget_vector_browse_ctx b64_pins __wget_hpkp_db_put_base64_spki
         (wget_hpkp_new h now age incl)).

(** ** Shapes of text *)

(** Every character is a blank or a tab. *)
Fixpoint blank_run (s : string) : bool :=
  match s with
  | String c s' => isspace c && blank_run s'
  | EmptyString => true
  end.

(** Every character is white space to [sscanf]. *)
Fixpoint space_run (s : string) : bool :=
  match s with
  | String c s' => scanf_isspace c && space_run s'
  | EmptyString => true
  end.

(** A string of digits without a leading zero, or the single digit 0. *)
Definition canonical_digits (ds : string) : Prop :=
  all_digits ds = true /\ ds <> EmptyString
  /\ forall c ds', ds = String c ds' -> char_code c = 48 -> ds' = EmptyString.

(** Every line is a comment. *)
Definition comment_lines (ls : list string) : Prop :=
  Forall (fun l => first_char_is l 35 = true) ls.

(** ** More sample data *)

Definition store_2 : wget_hpkp_db_t := store_of_two entry_1 entry_2.

(** One pin for the host of [entry_1], and a negative [max_age]. *)
Definition entry_1_one_pin : wget_hpkp_t := sample_entry "example.com" 2000 5000 0 [pin_C].
Definition entry_negative : wget_hpkp_t := sample_entry "example.com" 1000 (-5) 0 [pin_A; pin_B].

(** The texts of the pins A, B and A again. *)
Definition b64_ABA : list string :=
  [base64_encode pin_A; base64_encode pin_B; base64_encode pin_A].

(** An empty line where the first record is due, and a record behind it. *)
Definition file_blank : string :=
  unlines (header_lines ++ [EmptyString; host_line_text "example.com" entry_1]).

(** A host line whose host is the text of an IP address. *)
Definition file_ip_literal : string :=
  unlines (header_lines
           ++ [("10.0.0.1" ++ TAB ++ "1000" ++ TAB ++ "5000" ++ TAB ++ "0" ++ TAB ++ "2")%string]).

(** The store without the entry of the host of [entry_1]. *)
Definition without_entry_1 (db : wget_hpkp_db_t) : wget_hpkp_db_t :=
  with_entries db (wget_hashmap_remove (entries db) "example.com").

(** * Properties *)

(** ** Pins *)

Lemma cmp_pins_fold (g : nat -> bool) (l : list nat) (b : bool) :
  fold_left (fun (all_equal : bool) (i : nat) =>
               if all_equal then (if negb (g i) then false else all_equal) else all_equal) l b
  = b && forallb g l.
Proof.
  revert b; induction l as [|i l IH]; intros b; simpl.
  - by rewrite andb_true_r.
  - rewrite IH. destruct b, (g i); reflexivity.
Qed.

Lemma cmp_pins_for_forallb (p1 p2 : pin) :
  cmp_pins_for p1 p2 = forallb (fun i => byte_at p1 i =? byte_at p2 i) (seq 0 32).
Proof. unfold cmp_pins_for. by rewrite cmp_pins_fold. Qed.

Lemma cmp_pins_for_eq (p1 p2 : pin) :
  length p1 = 32%nat -> length p2 = 32%nat ->
  cmp_pins_for p1 p2 = true <-> p1 = p2.
Proof.
  intros L1 L2. rewrite cmp_pins_for_forallb, forallb_forall. split.
  - intros Hall. apply (nth_ext _ _ 0 0); [congruence|].
    intros n Hn. apply Z.eqb_eq, Hall, in_seq. lia.
  - intros -> i _. apply Z.eqb_refl.
Qed.

Lemma cmp_pins_cb_zero (p1 p2 : pin) :
  __cmp_pins_cb p1 p2 = 0 <-> cmp_pins_for p1 p2 = true.
Proof. unfold __cmp_pins_cb. destruct (cmp_pins_for p1 p2); split; congruence. Qed.

Lemma wget_vector_contains_elem (v : list pin) (p : pin) :
  Forall (fun q : pin => length q = 32%nat) v -> length p = 32%nat ->
  wget_vector_contains v p = true <-> p ∈ v.
Proof.
  intros Hv Hp. unfold wget_vector_contains. rewrite existsb_exists. split.
  - intros (q & Hq & Heq). apply Z.eqb_eq, cmp_pins_cb_zero in Heq.
    apply cmp_pins_for_eq in Heq; [subst; by apply list_elem_of_In | done |].
    rewrite Forall_forall in Hv. by apply Hv, list_elem_of_In.
  - intros Hin. exists p. split; [by apply list_elem_of_In|].
    apply Z.eqb_eq, cmp_pins_cb_zero, cmp_pins_for_eq; done.
Qed.

Lemma wget_vector_browse_zero {A C : Type} (v : list A) (browse : C -> A -> Z) (ctx : C) :
  wget_vector_browse v browse ctx = 0 <-> Forall (fun e => browse ctx e = 0) v.
Proof.
  induction v as [|e v IH]; simpl.
  - split; [constructor | done].
  - destruct (Z.eqb_spec (browse ctx e) 0) as [E|E].
    + rewrite IH. split; [by constructor | by inversion 1].
    + split; [done | by inversion 1].
Qed.

(** The comparison of pin lists is zero exactly when every pin of the
    first entry is found in the second. *)
Lemma compare_spkis_subset (hpkp1 hpkp2 : wget_hpkp_t) :
  well_formed_pins hpkp1 -> well_formed_pins hpkp2 ->
  __wget_hpkp_compare_spkis hpkp1 hpkp2 = 0 <-> pins hpkp1 ⊆ pins hpkp2.
Proof.
  intros W1 W2. unfold __wget_hpkp_compare_spkis.
  rewrite wget_vector_browse_zero, Forall_forall. unfold well_formed_pins in *.
  rewrite Forall_forall in W1. split.
  - intros Hall p Hp. apply wget_vector_contains_elem; [done | by apply W1 |].
    specialize (Hall p Hp). unfold __wget_hpkp_contains_spki_cb in Hall.
    by destruct (wget_vector_contains (pins hpkp2) p).
  - intros Hsub p Hp. unfold __wget_hpkp_contains_spki_cb.
    assert (wget_vector_contains (pins hpkp2) p = true) as ->; [|done].
    apply wget_vector_contains_elem; [done | by apply W1 | by apply Hsub].
Qed.

(** ** The expiry test *)

Lemma time_t_wrap_in_range (z : Z) : in_time_t z -> time_t_wrap z = z.
Proof.
  unfold in_time_t, TIME_T_MIN, TIME_T_MAX, time_t_wrap. intros Hz.
  rewrite Z.mod_small by lia. lia.
Qed.

Lemma time_t_add_in_range (a b : Z) : in_time_t (a + b) -> time_t_add a b = a + b.
Proof. apply time_t_wrap_in_range. Qed.

Lemma entry_expired_false (now : Z) (h : wget_hpkp_t) :
  not_expired now h -> entry_expired now h = false.
Proof.
  unfold entry_expired, not_expired. intros Hne.
  destruct (Z.gtb_spec (max_age h) 0) as [Hm|Hm]; [|done].
  destruct Hne as [Hr Hle]; [lia|].
  rewrite (time_t_add_in_range _ _ Hr). simpl. by apply Z.ltb_ge.
Qed.

Lemma entry_expired_true (now : Z) (h : wget_hpkp_t) :
  in_time_t (created h) -> in_time_t now ->
  max_age h > 0 -> created h + max_age h < now ->
  entry_expired now h = true.
Proof.
  unfold entry_expired, in_time_t. intros Hc Hn Hm Hlt.
  destruct (Z.gtb_spec (max_age h) 0); [|lia].
  rewrite time_t_add_in_range; [| unfold in_time_t; lia].
  simpl. by apply Z.ltb_lt.
Qed.

Lemma wget_vector_size_length {A : Type} (v : list A) : wget_vector_size v = Z.of_nat (length v).
Proof. reflexivity. Qed.

(** ** The admission engine *)

(** Unfolds one call of the admission engine on a candidate that is known
    not to be expired. *)
Ltac unfold_add Hexp :=
  unfold __wget_hpkp_db_add; cbv zeta;
  rewrite (entry_expired_false _ _ Hexp); unfold wget_hashmap_get.

Lemma add_absent (t : Z) (db : wget_hpkp_db_t) (cand : wget_hpkp_t) (excl : bool) :
  entries db !! host cand = None ->
  not_expired (current_time t) cand ->
  __wget_hpkp_db_add t db cand excl =
    if negb (max_age cand =? 0) && (wget_vector_size (pins cand) >=? 2)
    then Some (WGET_HPKP_OK, replaced db cand)
    else if wget_vector_size (pins cand) <? 2 then Some (WGET_HPKP_NOT_ENOUGH_PINS, db)
    else Some (WGET_HPKP_ERROR, db).
Proof. intros Habs Hexp. unfold_add Hexp. by rewrite Habs. Qed.

Lemma add_exclusive_present (t : Z) (db : wget_hpkp_db_t) (cand existing : wget_hpkp_t) :
  entries db !! host cand = Some existing ->
  not_expired (current_time t) cand ->
  __wget_hpkp_db_add t db cand true = Some (WGET_HPKP_ENTRY_EXISTS, db).
Proof. intros Hex Hexp. unfold_add Hexp. by rewrite Hex. Qed.

(** In exclusive mode the database changes only by the adoption of the
    candidate, which the return value [WGET_HPKP_OK] signals. *)
Lemma add_exclusive_cases (t : Z) (db db' : wget_hpkp_db_t) (cand : wget_hpkp_t) (r : Z) :
  __wget_hpkp_db_add t db cand true = Some (r, db') ->
  (r = WGET_HPKP_OK /\ entries db !! host cand = None /\ db' = replaced db cand)
  \/ (r <> WGET_HPKP_OK /\ db' = db).
Proof.
  unfold __wget_hpkp_db_add, wget_hashmap_get. cbv zeta.
  destruct (entry_expired (current_time t) cand).
  - intros [= <- <-]. by right.
  - destruct (entries db !! host cand) as [e|] eqn:E.
    + intros [= <- <-]. by right.
    + destruct (negb (max_age cand =? 0) && (wget_vector_size (pins cand) >=? 2)).
      * intros [= <- <-]. by left.
      * destruct (wget_vector_size (pins cand) <? 2); intros [= <- <-]; by right.
Qed.

Lemma db_consistent_init : db_consistent wget_hpkp_db_init.
Proof. intros k e. simpl. by rewrite lookup_empty. Qed.

(** The admission engine keeps every entry under its own host. *)
Lemma add_consistent (t : Z) (db db' : wget_hpkp_db_t) (cand : wget_hpkp_t) (excl : bool) (r : Z) :
  db_consistent db ->
  __wget_hpkp_db_add t db cand excl = Some (r, db') ->
  db_consistent db'.
Proof.
  intros Hdb. unfold __wget_hpkp_db_add, wget_hashmap_get. cbv zeta.
  assert (db_consistent (replaced db cand)) as Hrep.
  { intros k e. simpl. rewrite lookup_insert. case_decide; [by intros [= <-] | apply Hdb]. }
  assert (forall k, db_consistent (with_entries db (wget_hashmap_remove (entries db) k))) as Hdel.
  { intros k k' e. simpl. unfold wget_hashmap_remove. rewrite lookup_delete.
    case_decide; [done | apply Hdb]. }
  repeat match goal with
         | |- Some _ = Some _ -> _ => intros [= <- <-]; first [exact Hdb | exact Hrep | apply Hdel]
         | |- None = Some _ -> _ => done
         | |- context [match ?x with _ => _ end] => destruct x
         end.
Qed.

(** C4: a candidate with [max_age > 0] and [created + max_age < now] is
    rejected with [WGET_HPKP_ENTRY_EXPIRED] and the store is unchanged,
    whether or not its host has a resident entry and whatever the
    exclusive flag ([created] and the clock being values of [time_t]). *)
Theorem add_expired_rejected (t : Z) (db : wget_hpkp_db_t) (cand : wget_hpkp_t) (excl : bool) :
  in_time_t (created cand) -> in_time_t (current_time t) ->
  max_age cand > 0 ->
  created cand + max_age cand < current_time t ->
  __wget_hpkp_db_add t db cand excl = Some (WGET_HPKP_ENTRY_EXPIRED, db).
Proof.
  intros Hc Hn Hm Hlt. unfold __wget_hpkp_db_add. cbv zeta.
  by rewrite (entry_expired_true _ _ Hc Hn Hm Hlt).
Qed.

(** C6: a candidate that is not expired, whose host has a resident entry
    and which has [max_age = 0] or no pin, removes the resident entry and
    yields [WGET_HPKP_WAS_DELETED]; the host is then absent. *)
Theorem add_deletes (t : Z) (db : wget_hpkp_db_t) (cand existing : wget_hpkp_t) :
  db_consistent db ->
  entries db !! host cand = Some existing ->
  not_expired (current_time t) cand ->
  max_age cand = 0 \/ pins cand = [] ->
  exists db',
    __wget_hpkp_db_add t db cand false = Some (WGET_HPKP_WAS_DELETED, db')
    /\ entries db' = delete (host cand) (entries db)
    /\ wget_hashmap_get (entries db') (host cand) = None.
Proof.
  intros Hdb Hex Hexp Hdel.
  exists (with_entries db (wget_hashmap_remove (entries db) (host cand))).
  split; [| split; [done | apply lookup_delete_eq]].
  unfold_add Hexp. rewrite Hex. rewrite (Hdb _ _ Hex). simpl.
  destruct Hdel as [Hm | Hp].
  - rewrite Hm. simpl. done.
  - rewrite Hp. simpl. rewrite andb_false_r, orb_true_r. done.
Qed.

(** The one case the chain of tests misses: no resident entry, [max_age]
    zero and at least two pins. *)
Lemma add_error_case (t : Z) (db : wget_hpkp_db_t) (cand : wget_hpkp_t) (excl : bool) :
  entries db !! host cand = None ->
  max_age cand = 0 ->
  (2 <= length (pins cand))%nat ->
  __wget_hpkp_db_add t db cand excl = Some (WGET_HPKP_ERROR, db).
Proof.
  intros Habs Hm Hn. rewrite add_absent; [| done | unfold not_expired; lia].
  rewrite Hm, wget_vector_size_length. simpl.
  destruct (Z.ltb_spec (Z.of_nat (length (pins cand))) 2); [lia | done].
Qed.

(** C8, as the specification words it, fails: the catch-all is reached.
    On the empty store a candidate with [max_age = 0] and the two pins A
    and B gets [WGET_HPKP_ERROR], from the engine and from the public
    entry point alike. *)
Theorem add_returns_error :
  __wget_hpkp_db_add 3000 wget_hpkp_db_init
      (sample_entry "example.com" 3000 0 0 [pin_A; pin_B]) false
    = Some (WGET_HPKP_ERROR, wget_hpkp_db_init)
  /\ @wget_hpkp_db_add reference_collaborators 3000 3000 (Some wget_hpkp_db_init)
       (Some "example.com"%string) 0 0 (Some [base64_encode pin_A; base64_encode pin_B])
     = Some (WGET_HPKP_ERROR, Some wget_hpkp_db_init).
Proof. split; vm_compute; reflexivity. Qed.

Lemma add_expired_inv (t : Z) (db db' : wget_hpkp_db_t) (cand : wget_hpkp_t) (excl : bool) :
  __wget_hpkp_db_add t db cand excl = Some (WGET_HPKP_ENTRY_EXPIRED, db') ->
  entry_expired (current_time t) cand = true.
Proof.
  unfold __wget_hpkp_db_add, wget_hashmap_get. cbv zeta.
  repeat match goal with
         | |- Some _ = Some _ -> _ => first [done | by intros [= ?]]
         | |- None = Some _ -> _ => done
         | |- context [match ?x with _ => _ end] => destruct x
         | |- context [if ?x then _ else _] => destruct x
         end.
Qed.


Section PublicAdd.
Context `{Collaborators}.

Lemma put_base64_spki_fields (hpkp : wget_hpkp_t) (b64 : string) :
  let hpkp' := snd (__wget_hpkp_db_put_base64_spki hpkp b64) in
  fst (__wget_hpkp_db_put_base64_spki hpkp b64) = 0
  /\ host hpkp' = host hpkp /\ created hpkp' = created hpkp
  /\ max_age hpkp' = max_age hpkp /\ include_subdomains hpkp' = include_subdomains hpkp.
Proof.
  unfold __wget_hpkp_db_put_base64_spki.
  destruct (negb (wget_vector_contains (pins hpkp) (wget_base64_decode_alloc b64))); done.
Qed.

Lemma browse_put_fields (b64_pins : list string) (hpkp : wget_hpkp_t) :
  let hpkp' := snd (wget_vector_browse_ctx b64_pins __wget_hpkp_db_put_base64_spki hpkp) in
  host hpkp' = host hpkp /\ created hpkp' = created hpkp
  /\ max_age hpkp' = max_age hpkp /\ include_subdomains hpkp' = include_subdomains hpkp.
Proof.
  revert hpkp; induction b64_pins as [|b l IH]; intros hpkp; simpl; [done|].
  destruct (put_base64_spki_fields hpkp b) as (H0 & Hh & Hc & Hm & Hi).
  destruct (__wget_hpkp_db_put_base64_spki hpkp b) as [ret hpkp1]. simpl in *. subst ret.
  simpl. destruct (IH hpkp1) as (? & ? & ? & ?). repeat split; congruence.
Qed.



End PublicAdd.

(** ** The loop of the loader *)

Section LoadLoop.
Context `{Collaborators}.

Lemma load_pins_length (stream : list string) (pin num_pins : Z) (hpkp : wget_hpkp_t) :
  (length (snd (load_pins stream pin num_pins hpkp)) <= length stream)%nat.
Proof.
  revert pin hpkp; induction stream as [|buf stream IH]; intros pin hpkp; simpl.
  - destruct (pin <? num_pins); simpl; lia.
  - destruct (pin <? num_pins); simpl; [|lia].
    destruct (__wget_hpkp_parse_pin_line (c_string buf) (strlen buf)); simpl; [|lia].
    etrans; [apply IH | lia].
Qed.

(** The 8 bytes stored through the address of a [time_t] fit; the 8 bytes
    stored through the address of [num_pins] never do. *)
Lemma store_through_time_t (u : Z) : store_ulong sizeof_time_t u = Some u.
Proof. reflexivity. Qed.

Lemma store_through_num_pins (u : Z) : store_ulong sizeof_unsigned_int u = None.
Proof. reflexivity. Qed.

(** Where a record is due, a line that is no comment either fails to
    parse before the store through [num_pins], which ends the loop with
    [WGET_HPKP_ERROR], or reaches the store, and the iteration has no
    result. *)
Lemma load_iteration_host_line (clock : nat -> Z) (st : load_state) (buf : string)
    (stream1 : list string) :
  ls_version st <> 0 -> first_char_is buf 35 = false ->
  load_iteration clock st (buf :: stream1) =
    match __wget_hpkp_parse_host_line (c_string buf) (strlen buf) with
    | None => Some (load_fail st, stream1, false)
    | Some _ => None
    end.
Proof.
  intros Hv Hc. unfold load_iteration. rewrite Hc.
  destruct (Z.eqb_spec (ls_version st) 0); [done|].
  destruct (__wget_hpkp_parse_host_line (c_string buf) (strlen buf)) as [hl|]; [|done].
  by rewrite store_through_num_pins.
Qed.

(** An iteration that has a result leaves the database as it is, and
    [retval] as it is unless it sets it to [WGET_HPKP_ERROR]; when the
    loop continues it has read a line. *)
Lemma load_iteration_effect (clock : nat -> Z) (st st' : load_state) (stream stream' : list string)
    (b : bool) :
  load_iteration clock st stream = Some (st', stream', b) ->
  ls_db st' = ls_db st
  /\ (ls_retval st' = ls_retval st \/ ls_retval st' = WGET_HPKP_ERROR)
  /\ (b = true -> (length stream' < length stream)%nat).
Proof.
  assert (forall (s1 : load_state) (l1 : list string) (b1 : bool),
             ls_db s1 = ls_db st ->
             ls_retval s1 = ls_retval st \/ ls_retval s1 = WGET_HPKP_ERROR ->
             (b1 = true -> (length l1 < length stream)%nat) ->
             Some (s1, l1, b1) = Some (st', stream', b) ->
             ls_db st' = ls_db st
             /\ (ls_retval st' = ls_retval st \/ ls_retval st' = WGET_HPKP_ERROR)
             /\ (b = true -> (length stream' < length stream)%nat)) as Hcase.
  { by intros s1 l1 b1 ? ? ? [= <- <- <-]. }
  unfold load_iteration. destruct stream as [|buf stream1].
  { apply Hcase; [done | by left | done]. }
  destruct (first_char_is buf 35).
  { apply Hcase; [done | by left | simpl; lia]. }
  destruct (ls_version st =? 0).
  { destruct (negb (String.eqb (c_string buf) "version 1")).
    - apply Hcase; [done | by right | done].
    - apply Hcase; [done | by left | simpl; lia]. }
  destruct (__wget_hpkp_parse_host_line (c_string buf) (strlen buf)) as [hl|].
  - by rewrite store_through_num_pins.
  - apply Hcase; [done | by right | done].
Qed.

(** An iteration after which the loop continues has read a line. *)
Lemma load_iteration_shrinks (clock : nat -> Z) (st st' : load_state) (stream stream' : list string) :
  load_iteration clock st stream = Some (st', stream', true) ->
  (length stream' < length stream)%nat.
Proof. intros E. by apply (load_iteration_effect _ _ _ _ _ _ E). Qed.

(** The loop never runs out of iterations: any two bounds above the
    length of the stream give the same outcome. *)
Lemma load_loop_fuel (clock : nat -> Z) (n m : nat) (st : load_state) (stream : list string) :
  (length stream < n)%nat -> (length stream < m)%nat ->
  load_loop n clock st stream = load_loop m clock st stream.
Proof.
  revert m st stream; induction n as [|n IH]; intros m st stream Hn Hm; [lia|].
  destruct m as [|m]; [lia|]. simpl.
  destruct (load_iteration clock st stream) as [[[st' stream'] [|]]|] eqn:E; [|done|done].
  apply load_iteration_shrinks in E. apply IH; lia.
Qed.

Lemma load_loop_returns (clock : nat -> Z) (n : nat) (st : load_state) (stream : list string) :
  (length stream < n)%nat -> load_loop n clock st stream <> LoadOutOfFuel.
Proof.
  revert st stream; induction n as [|n IH]; intros st stream Hn; [lia|]. simpl.
  destruct (load_iteration clock st stream) as [[[st' stream'] [|]]|] eqn:E; [|done|done].
  apply load_iteration_shrinks in E. apply IH; lia.
Qed.

Lemma load_run_continue (clock : nat -> Z) (st st' : load_state) (stream stream' : list string) :
  load_iteration clock st stream = Some (st', stream', true) ->
  load_run clock st stream = load_run clock st' stream'.
Proof.
  intros E. unfold load_run at 1. simpl. rewrite E.
  apply load_loop_fuel; [|unfold lt; done]. by apply load_iteration_shrinks in E.
Qed.

Lemma load_run_stop (clock : nat -> Z) (st st' : load_state) (stream stream' : list string) :
  load_iteration clock st stream = Some (st', stream', false) ->
  load_run clock st stream = LoadReturned st'.
Proof. intros E. unfold load_run. simpl. by rewrite E. Qed.

Lemma load_run_eof (clock : nat -> Z) (st : load_state) :
  load_run clock st [] = LoadReturned st.
Proof. reflexivity. Qed.

Lemma load_run_undefined (clock : nat -> Z) (st : load_state) (stream : list string) :
  load_iteration clock st stream = None ->
  load_run clock st stream = LoadUndefined.
Proof. intros E. unfold load_run. simpl. by rewrite E. Qed.

(** Comment lines are read and passed over. *)
Lemma load_run_comments (clock : nat -> Z) (st : load_state) (pre stream : list string) :
  comment_lines pre ->
  load_run clock st (pre ++ stream) = load_run clock st stream.
Proof.
  induction 1 as [|l pre Hl _ IH]; [done|]. rewrite <- IH. simpl app.
  apply load_run_continue. unfold load_iteration. by rewrite Hl.
Qed.

(** The version line, where it is due. *)
Lemma load_run_version (clock : nat -> Z) (st : load_state) (buf : string)
    (stream : list string) :
  ls_version st = 0 -> first_char_is buf 35 = false ->
  c_string buf = "version 1"%string ->
  load_run clock st (buf :: stream) = load_run clock (after_version st) stream.
Proof.
  intros Hv Hc Hb. apply load_run_continue. unfold load_iteration.
  by rewrite Hc, Hv, Hb.
Qed.

(** Another line where the version line is due. *)
Lemma load_run_no_version (clock : nat -> Z) (st : load_state) (buf : string)
    (stream : list string) :
  ls_version st = 0 -> first_char_is buf 35 = false ->
  c_string buf <> "version 1"%string ->
  load_run clock st (buf :: stream) = LoadReturned (load_fail st).
Proof.
  intros Hv Hc Hb. apply (load_run_stop _ _ _ _ stream). unfold load_iteration.
  apply String.eqb_neq in Hb. by rewrite Hc, Hv, Hb.
Qed.

(** A line that does not parse as a host line where a record is due. *)
Lemma load_run_no_host_line (clock : nat -> Z) (st : load_state) (buf : string)
    (stream : list string) :
  ls_version st <> 0 -> first_char_is buf 35 = false ->
  __wget_hpkp_parse_host_line (c_string buf) (strlen buf) = None ->
  load_run clock st (buf :: stream) = LoadReturned (load_fail st).
Proof.
  intros Hv Hc Hp. apply (load_run_stop _ _ _ _ stream).
  by rewrite (load_iteration_host_line _ _ _ _ Hv Hc), Hp.
Qed.

(** A host line on which the parser reaches the store through
    [num_pins]: the run is undefined from there. *)
Lemma load_run_overrun (clock : nat -> Z) (st : load_state) (buf : string)
    (stream : list string) :
  ls_version st <> 0 -> first_char_is buf 35 = false ->
  stores_num_pins buf ->
  load_run clock st (buf :: stream) = LoadUndefined.
Proof.
  intros Hv Hc [hl Hp]. apply load_run_undefined.
  by rewrite (load_iteration_host_line _ _ _ _ Hv Hc), Hp.
Qed.

(** A run of the loop that returns has left the database as it was. *)
Lemma load_loop_keeps (clock : nat -> Z) (n : nat) (st st' : load_state) (stream : list string) :
  load_loop n clock st stream = LoadReturned st' ->
  ls_db st' = ls_db st
  /\ (ls_retval st' = ls_retval st \/ ls_retval st' = WGET_HPKP_ERROR).
Proof.
  revert st stream; induction n as [|n IH]; intros st stream; [done|]. simpl.
  destruct (load_iteration clock st stream) as [[[st1 stream1] b]|] eqn:E; [|done].
  destruct (load_iteration_effect _ _ _ _ _ _ E) as (Hdb & Hr & _).
  destruct b.
  - intros Hrun. destruct (IH _ _ Hrun) as [Hdb' Hr']. split; [congruence|].
    destruct Hr' as [Hr' | Hr']; [|by right]. rewrite Hr'. done.
  - by intros [= <-].
Qed.

End LoadLoop.

(** ** The loader and the serializer: outcomes *)

Section LoadOutcomes.
Context `{Collaborators}.

Lemma load_unfold (clock : nat -> Z) (content : string) (c : ascii) (name : string)
    (db : wget_hpkp_db_t) :
  wget_hpkp_db_load clock (Some content) (Some (String c name)) (Some db) =
    match load_run clock (load_start db) (file_lines content) with
    | LoadReturned st =>
        Some (if ls_retval st =? 0 then WGET_HPKP_OK else ls_retval st, Some (ls_db st))
    | LoadUndefined | LoadOutOfFuel => None
    end.
Proof. reflexivity. Qed.

(** C7: on a target that exists and is neither a regular file nor a
    symbolic link, the serializer writes and removes nothing, and the
    value it returns is 0, the count of pins written, not the negative
    [WGET_HPKP_ERROR]. *)
Theorem save_irregular_target_returns_zero (readlink_result : string) (fopen_ok : bool)
    (c : ascii) (name : string) (db : wget_hpkp_db_t) :
  wget_hpkp_db_save (Some S_IFOTHER) readlink_result fopen_ok (Some (String c name)) (Some db)
    = (0, [])
  /\ WGET_HPKP_ERROR < 0
  /\ WGET_HPKP_ERROR_FILE_OPEN < 0.
Proof. done. Qed.

End LoadOutcomes.

(** ** Strings and tokens *)

Section Tokens.
Local Open Scope string_scope.

Lemma append_cons (c : ascii) (s t : string) : String c s ++ t = String c (s ++ t).
Proof. reflexivity. Qed.

Lemma append_empty_l (t : string) : EmptyString ++ t = t.
Proof. reflexivity. Qed.

Lemma append_empty_r (s : string) : s ++ EmptyString = s.
Proof. induction s as [|c s IH]; [done|]. by rewrite append_cons, IH. Qed.

Lemma append_assoc (s t u : string) : (s ++ t) ++ u = s ++ (t ++ u).
Proof. induction s as [|c s IH]; [done|]. by rewrite !append_cons, IH. Qed.

Lemma length_append (s t : string) :
  String.length (s ++ t) = (String.length s + String.length t)%nat.
Proof. induction s as [|c s IH]; [done|]. rewrite append_cons. simpl. by rewrite IH. Qed.

Lemma string_skip_append (s t : string) : string_skip (String.length s) (s ++ t) = t.
Proof. induction s as [|c s IH]; [by destruct t|]. rewrite append_cons. simpl. exact IH. Qed.

Lemma scanf_token_append (tok rest : string) :
  no_space tok = true -> token_end rest = true ->
  scanf_token (tok ++ rest) = (tok, rest).
Proof.
  intros Htok Hrest. induction tok as [|c tok IH].
  - rewrite append_empty_l. destruct rest as [|c rest]; [done|]. simpl in *. by rewrite Hrest.
  - rewrite append_cons. simpl in *. apply andb_true_iff in Htok as [Hc Htok].
    apply negb_true_iff in Hc. by rewrite Hc, (IH Htok).
Qed.

Lemma scanf_skip_space_token (tok rest : string) :
  tok <> EmptyString -> no_space tok = true ->
  scanf_skip_space (tok ++ rest) = tok ++ rest.
Proof.
  destruct tok as [|c tok]; [done|]. intros _ Htok. rewrite append_cons. simpl in *.
  apply andb_true_iff in Htok as [Hc _]. apply negb_true_iff in Hc. by rewrite Hc.
Qed.

Lemma eqb_empty_false (s : string) : s <> EmptyString -> String.eqb s EmptyString = false.
Proof. intros Hs. by apply String.eqb_neq. Qed.

Lemma sscanf_ms_token (tok rest : string) :
  tok <> EmptyString -> no_space tok = true -> token_end rest = true ->
  sscanf_ms (tok ++ rest) = Some tok.
Proof.
  intros Hne Htok Hrest. unfold sscanf_ms.
  rewrite (scanf_skip_space_token _ _ Hne Htok), (scanf_token_append _ _ Htok Hrest).
  by rewrite (eqb_empty_false _ Hne).
Qed.

Lemma parse_hostname_token (h rest : string) (len : Z) :
  h <> EmptyString -> no_space h = true ->
  __parse_hostname (h ++ TAB ++ rest) len = Some (h, TAB ++ rest).
Proof.
  intros Hne Htok. unfold __parse_hostname.
  rewrite (sscanf_ms_token _ _ Hne Htok); [|done].
  by rewrite string_skip_append.
Qed.

End Tokens.

(** ** Numbers of the text format *)

Section Numbers.
Local Open Scope string_scope.

Lemma char_code_digit (r : Z) : 0 <= r < 10 -> char_code (digit_char r) = 48 + r.
Proof.
  intros Hr. unfold char_code, digit_char. rewrite nat_ascii_embedding; lia.
Qed.

Lemma isdigit_digit (r : Z) : 0 <= r < 10 -> isdigit (digit_char r) = true.
Proof.
  intros Hr. unfold isdigit. rewrite (char_code_digit r Hr).
  apply andb_true_iff; split; apply Z.leb_le; lia.
Qed.

Lemma digits_value_append (a : Z) (s t : string) :
  digits_value a (s ++ t) = digits_value (digits_value a s) t.
Proof. revert a; induction s as [|c s IH]; intros a; [done|]. rewrite append_cons. simpl. apply IH. Qed.

Lemma all_digits_append (s t : string) : all_digits (s ++ t) = all_digits s && all_digits t.
Proof.
  induction s as [|c s IH]; [done|]. rewrite append_cons. simpl. by rewrite IH, andb_assoc.
Qed.

(** The digits [print_digits] puts in front of [acc]: they are digits,
    at least one and at most [fuel], they read back as [n], and the first
    one is not a zero unless [n] is zero. *)
Lemma print_digits_spec (fuel : nat) (n : Z) (acc : string) :
  0 <= n < 10 ^ Z.of_nat fuel -> (0 < fuel)%nat ->
  exists ds,
    print_digits fuel n acc = ds ++ acc
    /\ all_digits ds = true
    /\ (0 < String.length ds <= fuel)%nat
    /\ (forall a, digits_value a ds = a * 10 ^ Z.of_nat (String.length ds) + n)
    /\ (forall c ds', ds = String c ds' -> char_code c = 48 -> n = 0 /\ ds' = EmptyString).
Proof.
  revert n acc; induction fuel as [|fuel IH]; intros n acc Hn Hf; [lia|].
  simpl. assert (0 <= n mod 10 < 10) as Hr by (apply Z.mod_pos_bound; lia).
  change (ascii_of_nat (Z.to_nat (48 + n mod 10))) with (digit_char (n mod 10)).
  destruct (Z.ltb_spec n 10) as [Hlt|Hge].
  - exists (String (digit_char (n mod 10)) EmptyString). rewrite Z.mod_small in * by lia.
    split; [done|]. split; [simpl; by rewrite (isdigit_digit n)|].
    split; [simpl; lia|]. split.
    + intros a. simpl. rewrite (char_code_digit n) by lia. lia.
    + intros c ds' [= <- <-] Hc. rewrite (char_code_digit n) in Hc by lia. split; [lia | done].
  - destruct fuel as [|fuel'].
    { simpl in Hn. lia. }
    destruct (IH (n / 10) (String (digit_char (n mod 10)) acc)) as (ds & E & Hd & Hl & Hv & Hz).
    { split; [apply Z.div_pos; lia|].
      apply Z.div_lt_upper_bound; [lia|].
      replace (Z.of_nat (S (S fuel'))) with (Z.of_nat (S fuel') + 1) in Hn by lia.
      rewrite Z.pow_add_r in Hn by lia. lia. }
    { lia. }
    exists (ds ++ String (digit_char (n mod 10)) EmptyString).
    split; [by rewrite E, append_assoc|].
    split; [rewrite all_digits_append, Hd; simpl; by rewrite (isdigit_digit _ Hr)|].
    split; [rewrite length_append; simpl; lia|]. split.
    + intros a. rewrite digits_value_append, Hv, length_append. simpl.
      rewrite (char_code_digit _ Hr).
      replace (Z.of_nat (String.length ds + 1)) with (Z.of_nat (String.length ds) + 1) by lia.
      rewrite Z.pow_add_r by lia. pose proof (Z.div_mod n 10). lia.
    + intros c ds' Hds Hc. destruct ds as [|d ds0]; [simpl in Hl; lia|].
      rewrite append_cons in Hds. injection Hds as <- _.
      destruct (Hz d ds0 eq_refl Hc) as [Hn0 _].
      assert (1 <= n / 10) by (apply Z.div_le_lower_bound; lia). lia.
Qed.

Lemma print_decimal_spec (n : Z) :
  0 <= n <= ULONG_MAX ->
  all_digits (print_decimal n) = true
  /\ (0 < String.length (print_decimal n))%nat
  /\ digits_value 0 (print_decimal n) = n
  /\ (forall c ds', print_decimal n = String c ds' -> char_code c = 48 -> ds' = EmptyString).
Proof.
  intros Hn. unfold print_decimal.
  destruct (print_digits_spec 20 n EmptyString) as (ds & E & Hd & Hl & Hv & Hz).
  { unfold ULONG_MAX in Hn. simpl. lia. }
  { lia. }
  rewrite E, append_empty_r.
  split; [done|]. split; [lia|]. split; [rewrite Hv; lia|].
  intros c ds' Hds Hc. by destruct (Hz c ds' Hds Hc).
Qed.

(** What follows a number on a host line: the end of the string, a blank
    or a tab. *)
Lemma parse_number_for_digits (n : nat) (ds rest dst : string) :
  all_digits ds = true -> (String.length ds <= n)%nat -> at_space_or_end rest = true ->
  parse_number_for n (ds ++ rest) dst = Some (dst ++ ds, rest).
Proof.
  revert n dst; induction ds as [|c ds IH]; intros n dst Hd Hl Hrest.
  - rewrite append_empty_l, append_empty_r. destruct n as [|n]; [done|]. simpl.
    destruct rest as [|c rest]; [done|]. simpl in Hrest. rewrite Hrest.
    destruct (isdigit c) eqn:Ec; [|done].
    unfold isdigit, isspace in *. apply andb_true_iff in Ec as [E1 E2].
    apply Z.leb_le in E1. apply orb_true_iff in Hrest as [E|E]; apply Z.eqb_eq in E; lia.
  - simpl in Hd, Hl. apply andb_true_iff in Hd as [Hc Hd].
    destruct n as [|n]; [lia|]. rewrite append_cons. simpl. rewrite Hc.
    rewrite IH by (done || lia). by rewrite append_assoc.
Qed.

Lemma parse_number_unsigned_print (v : Z) (rest : string) (len : Z) :
  0 <= v <= ULONG_MAX ->
  Z.of_nat (String.length (print_decimal v)) <= len ->
  at_space_or_end rest = true ->
  __parse_number_unsigned (print_decimal v ++ rest) len = Some (v, rest).
Proof.
  intros Hv Hlen Hrest. destruct (print_decimal_spec v Hv) as (Hd & Hl & Hval & Hz).
  unfold __parse_number_unsigned.
  rewrite (parse_number_for_digits _ _ _ _ Hd) by (done || lia).
  rewrite append_empty_l.
  destruct (print_decimal v) as [|d0 ds] eqn:E; [simpl in Hl; lia|].
  assert (Z.eqb (char_code d0) 48 && negb (String.eqb ds EmptyString) = false) as ->.
  { destruct (Z.eqb_spec (char_code d0) 48) as [E0|]; [|done].
    by rewrite (Hz d0 ds eq_refl E0). }
  unfold strtoul. rewrite Hval. f_equal. f_equal. lia.
Qed.

Lemma next_token_tab (s : string) :
  at_space_or_end s = false ->
  __next_token (TAB ++ s) = (true, s).
Proof.
  intros Hs. change (TAB ++ s) with (String (ascii_of_nat 9) s). simpl.
  destruct s as [|c s]; [done|]. simpl in *. by rewrite Hs.
Qed.

Lemma digits_not_space (ds rest : string) :
  all_digits ds = true -> (0 < String.length ds)%nat ->
  at_space_or_end (ds ++ rest) = false.
Proof.
  destruct ds as [|c ds]; [simpl; lia|]. intros Hd _. rewrite append_cons. simpl in *.
  apply andb_true_iff in Hd as [Hc _]. unfold isdigit, isspace in *.
  apply andb_true_iff in Hc as [E1 E2]. apply Z.leb_le in E1.
  apply orb_false_iff; split; apply Z.eqb_neq; lia.
Qed.

Lemma time_t_of_ulong_mod (z : Z) : in_time_t z -> time_t_of_ulong (z mod 2 ^ 64) = z.
Proof.
  unfold in_time_t, time_t_of_ulong, TIME_T_MIN, TIME_T_MAX. intros Hz.
  destruct (Z.leb_spec (z mod 2 ^ 64) (2 ^ 63 - 1)) as [Hle|Hgt].
  - destruct (Z_lt_le_dec z 0) as [Hneg|Hpos].
    + rewrite <- (Z.mod_add z 1) in Hle by lia. rewrite Z.mod_small in Hle; lia.
    + rewrite Z.mod_small; lia.
  - destruct (Z_lt_le_dec z 0) as [Hneg|Hpos].
    + rewrite <- (Z.mod_add z 1) by lia. rewrite Z.mod_small; lia.
    + rewrite Z.mod_small in Hgt; lia.
Qed.

End Numbers.

(** ** Reading back what the serializer writes *)

Section ReadBack.
Context `{Collaborators}.

Lemma printf_lu_range (z : Z) : 0 <= z mod 2 ^ 64 <= ULONG_MAX.
Proof. unfold ULONG_MAX. pose proof (Z.mod_pos_bound z (2 ^ 64)). lia. Qed.

Lemma printf_u_range (z : Z) : 0 <= z mod 2 ^ 32 <= ULONG_MAX.
Proof. unfold ULONG_MAX. pose proof (Z.mod_pos_bound z (2 ^ 32)). lia. Qed.

(** A number printed in front of a tab, or at the end of the line, after
    a tab. *)
Lemma token_number (v : Z) (rest : string) (len : Z) :
  0 <= v <= ULONG_MAX ->
  Z.of_nat (String.length (print_decimal v)) <= len ->
  at_space_or_end rest = true ->
  token_then (fun s => __parse_number_unsigned s len) (TAB ++ print_decimal v ++ rest)%string
  = Some (v, rest).
Proof.
  intros Hv Hlen Hrest. unfold token_then.
  destruct (print_decimal_spec v Hv) as (Hd & Hl & _ & _).
  rewrite next_token_tab by (by apply digits_not_space).
  by apply parse_number_unsigned_print.
Qed.

Lemma token_digit (i : Z) (rest : string) :
  i = 0 \/ i = 1 ->
  token_then __parse_digit (TAB ++ printf_u i ++ rest)%string = Some (i, rest).
Proof. intros [-> | ->]; reflexivity. Qed.

(** The host line the serializer writes for an entry under a host token
    parses as far as the store through [num_pins]; the numbers are the
    ones [printf] wrote. *)
Lemma parse_host_line_written (key : string) (e : wget_hpkp_t) :
  host_token key ->
  include_subdomains e = 0 \/ include_subdomains e = 1 ->
  __wget_hpkp_parse_host_line (host_line_text key e) (strlen (host_line_text key e))
  = Some {| hl_host := key;
            hl_created := time_t_of_ulong (created e mod 2 ^ 64);
            hl_max_age := time_t_of_ulong (max_age e mod 2 ^ 64);
            hl_include_subdomains := include_subdomains e;
            hl_num_pins := wget_vector_size (pins e) mod 2 ^ 32;
            hl_retval :=
              if uint_at_ulong (wget_vector_size (pins e) mod 2 ^ 32) >? 0 then 0 else -1 |}.
Proof.
  intros (Hne & Hsp & _ & iri & Hiri & Hip) Hi.
  set (len := strlen (host_line_text key e)).
  assert (Z.of_nat (String.length (printf_lu (created e))) <= len
          /\ Z.of_nat (String.length (printf_lu (max_age e))) <= len
          /\ Z.of_nat (String.length (printf_u (wget_vector_size (pins e)))) <= len)
    as (L1 & L2 & L3).
  { unfold len, strlen, host_line_text. rewrite !length_append. lia. }
  unfold __wget_hpkp_parse_host_line, host_line_text.
  rewrite (parse_hostname_token _ _ _ Hne Hsp), Hiri, Hip.
  unfold printf_lu at 1.
  rewrite token_number by first [apply printf_lu_range | exact L1 | reflexivity].
  unfold printf_lu at 1.
  rewrite token_number by first [apply printf_lu_range | exact L2 | reflexivity].
  rewrite (token_digit _ _ Hi).
  assert ((include_subdomains e >? 1) = false) as -> by (destruct Hi as [-> | ->]; done).
  rewrite <- (append_empty_r (printf_u (wget_vector_size (pins e)))).
  unfold printf_u at 1.
  rewrite token_number by first [apply printf_u_range | exact L3 | reflexivity].
  done.
Qed.

Lemma parse_host_line_text (key : string) (e : wget_hpkp_t) :
  host_token key ->
  in_time_t (created e) -> in_time_t (max_age e) ->
  include_subdomains e = 0 \/ include_subdomains e = 1 ->
  0 < Z.of_nat (length (pins e)) < 2 ^ 32 ->
  __wget_hpkp_parse_host_line (host_line_text key e) (strlen (host_line_text key e))
  = Some {| hl_host := key; hl_created := created e; hl_max_age := max_age e;
            hl_include_subdomains := include_subdomains e;
            hl_num_pins := Z.of_nat (length (pins e));
            hl_retval := 0 |}.
Proof.
  intros Hk Hc Hm Hi Hn. rewrite (parse_host_line_written _ _ Hk Hi).
  rewrite !time_t_of_ulong_mod by done.
  unfold uint_at_ulong, wget_vector_size. rewrite Z.mod_mod by lia.
  rewrite Z.mod_small by lia.
  destruct (Z.gtb_spec (Z.of_nat (length (pins e))) 0); [done | lia].
Qed.

End ReadBack.

(** ** What the serializer writes *)

Section SaveText.
Context `{Collaborators}.

Lemma unlines_app (l1 l2 : list string) :
  unlines (l1 ++ l2) = (unlines l1 ++ unlines l2)%string.
Proof.
  induction l1 as [|l l1 IH]; [done|]. simpl. by rewrite IH, !append_assoc.
Qed.

Lemma save_header_unlines : save_header = unlines header_lines.
Proof. reflexivity. Qed.

Lemma vector_browse_text (ps : list pin) (fp0 : string) :
  wget_vector_browse_ctx ps __vector_browse_cb fp0
  = (0, (fp0 ++ unlines (map pin_line_text ps))%string).
Proof.
  revert fp0; induction ps as [|p ps IH]; intros fp0; simpl.
  - by rewrite append_empty_r.
  - rewrite IH. unfold pin_line_text. by rewrite !append_assoc.
Qed.

Lemma hashtable_browse_cb_text (bctx : browser_ctx) (key : string) (e : wget_hpkp_t) :
  pins e <> [] ->
  __hashtable_browse_cb bctx key e
  = (0, {| fp := (fp bctx ++ unlines (record_lines key e))%string;
           written_pins := (written_pins bctx + wget_vector_size (pins e)) mod 2 ^ 32 |}).
Proof.
  intros Hne. unfold __hashtable_browse_cb.
  destruct (Z.gtb_spec (wget_vector_size (pins e)) 0) as [_|Hle].
  2:{ unfold wget_vector_size in Hle. destruct (pins e); [done | simpl in Hle; lia]. }
  rewrite vector_browse_text. simpl. unfold host_line_text.
  by rewrite !append_assoc.
Qed.

Lemma hashmap_browse_text (kvs : list (string * wget_hpkp_t)) (bctx : browser_ctx) :
  Forall (fun kv => pins (snd kv) <> []) kvs ->
  0 <= written_pins bctx < 2 ^ 32 ->
  fold_left (fun c kv => snd (__hashtable_browse_cb c (fst kv) (snd kv))) kvs bctx
  = {| fp := (fp bctx
              ++ unlines (concat (map (fun kv => record_lines (fst kv) (snd kv)) kvs)))%string;
       written_pins := (written_pins bctx + total_pins kvs) mod 2 ^ 32 |}.
Proof.
  revert bctx; induction kvs as [|[k e] kvs IH]; intros bctx Hall Hw.
  - simpl. rewrite append_empty_r, Z.add_0_r, Z.mod_small by done. by destruct bctx.
  - apply Forall_cons in Hall as [He Hall]. simpl in He. simpl fold_left.
    rewrite (hashtable_browse_cb_text _ _ _ He). simpl snd.
    rewrite IH; [|done|simpl; apply Z.mod_pos_bound; lia].
    simpl. rewrite unlines_app, append_assoc. f_equal.
    + by rewrite !append_assoc.
    + rewrite Zplus_mod_idemp_l. f_equal. lia.
Qed.

(** ** The lines of a text *)

Lemma no_newline_append (s t : string) :
  no_newline (s ++ t)%string = no_newline s && no_newline t.
Proof.
  induction s as [|c s IH]; [done|]. rewrite append_cons. simpl. by rewrite IH, andb_assoc.
Qed.

Lemma no_space_no_newline (s : string) : no_space s = true -> no_newline s = true.
Proof.
  induction s as [|c s IH]; [done|]. simpl. intros [Hc Hs]%andb_true_iff.
  rewrite (IH Hs), andb_true_r. apply negb_true_iff in Hc. apply negb_true_iff.
  unfold scanf_isspace in Hc. apply orb_false_iff in Hc as [_ Hc].
  apply Z.eqb_neq. intros E. rewrite E in Hc. done.
Qed.

Lemma all_digits_no_newline (s : string) : all_digits s = true -> no_newline s = true.
Proof.
  induction s as [|c s IH]; [done|]. simpl. intros [Hc Hs]%andb_true_iff.
  rewrite (IH Hs), andb_true_r. apply negb_true_iff, Z.eqb_neq.
  unfold isdigit in Hc. apply andb_true_iff in Hc as [Hc _]. apply Z.leb_le in Hc. lia.
Qed.

Lemma print_decimal_no_newline (v : Z) :
  0 <= v <= ULONG_MAX -> no_newline (print_decimal v) = true.
Proof. intros Hv. apply all_digits_no_newline. by destruct (print_decimal_spec v Hv). Qed.

Lemma file_lines_from_line (cur l rest : string) :
  no_newline l = true ->
  file_lines_from cur (l ++ NL ++ rest)%string
  = (cur ++ l)%string :: file_lines_from EmptyString rest.
Proof.
  revert cur; induction l as [|c l IH]; intros cur Hl.
  - rewrite append_empty_l, append_empty_r. reflexivity.
  - simpl in Hl. apply andb_true_iff in Hl as [Hc Hl]. apply negb_true_iff in Hc.
    rewrite append_cons. simpl. rewrite Hc, (IH _ Hl), append_assoc. done.
Qed.

Lemma host_line_no_newline (key : string) (e : wget_hpkp_t) :
  no_space key = true -> no_newline (host_line_text key e) = true.
Proof.
  intros Hk. unfold host_line_text, printf_lu, printf_u.
  rewrite !no_newline_append, (no_space_no_newline _ Hk).
  rewrite !print_decimal_no_newline by first [apply printf_lu_range | apply printf_u_range].
  reflexivity.
Qed.

End SaveText.

(** ** Loading what the serializer has written *)

Section SaveLoad.
Context `{Collaborators}.
Implicit Types (kvs : list (string * wget_hpkp_t)).
Local Open Scope string_scope.

Lemma total_pins_perm kvs kvs' : Permutation kvs kvs' -> total_pins kvs = total_pins kvs'.
Proof. induction 1; simpl; lia. Qed.


Lemma c_string_no_nul (s : string) : no_nul s = true -> c_string s = s.
Proof.
  induction s as [|c s IH]; [done|]. simpl. intros [Hc Hs]%andb_true_iff.
  apply negb_true_iff in Hc. by rewrite Hc, (IH Hs).
Qed.

Lemma no_nul_append (s t : string) : no_nul (s ++ t) = no_nul s && no_nul t.
Proof.
  induction s as [|c s IH]; [done|]. rewrite append_cons. simpl. by rewrite IH, andb_assoc.
Qed.

Lemma all_digits_no_nul (s : string) : all_digits s = true -> no_nul s = true.
Proof.
  induction s as [|c s IH]; [done|]. simpl. intros [Hc Hs]%andb_true_iff.
  rewrite (IH Hs), andb_true_r. apply negb_true_iff, Z.eqb_neq.
  unfold isdigit in Hc. apply andb_true_iff in Hc as [Hc _]. apply Z.leb_le in Hc. lia.
Qed.

Lemma print_decimal_no_nul (v : Z) : 0 <= v <= ULONG_MAX -> no_nul (print_decimal v) = true.
Proof. intros Hv. apply all_digits_no_nul. by destruct (print_decimal_spec v Hv). Qed.

Lemma host_line_no_nul (key : string) (e : wget_hpkp_t) :
  no_nul key = true -> no_nul (host_line_text key e) = true.
Proof.
  intros Hk. unfold host_line_text, printf_lu, printf_u.
  rewrite !no_nul_append, Hk.
  rewrite !print_decimal_no_nul by first [apply printf_lu_range | apply printf_u_range].
  reflexivity.
Qed.

Lemma file_lines_unlines_app (ls : list string) (rest : string) :
  Forall (fun l => no_newline l = true) ls ->
  file_lines (unlines ls ++ rest) = (ls ++ file_lines rest)%list.
Proof.
  unfold file_lines. induction 1 as [|l ls Hl _ IH]; [done|]. simpl.
  rewrite !append_assoc. by rewrite (file_lines_from_line _ _ _ Hl), IH.
Qed.

(** What the serializer writes for a store whose entries all have pins. *)
Lemma save_text (stat_result : option file_kind) (readlink_result : string)
    (c : ascii) (name : string) (db : wget_hpkp_db_t) :
  entries db <> ∅ ->
  Forall (fun kv => pins (snd kv) <> []) (wget_hashmap_order (entries db)) ->
  stat_result <> Some S_IFOTHER ->
  wget_hpkp_db_save stat_result readlink_result true (Some (String c name)) (Some db)
  = (int_of_uint (total_pins (wget_hashmap_order (entries db)) mod 2 ^ 32),
     [FsWrite (String c name)
        (unlines header_lines
         ++ unlines (concat (map (fun kv => record_lines (fst kv) (snd kv))
                               (wget_hashmap_order (entries db)))))]).
Proof.
  intros Hne Hall Hstat.
  assert (Z.eqb (wget_hashmap_size (entries db)) 0 = false) as Hsz.
  { apply Z.eqb_neq. unfold wget_hashmap_size. intros E. apply Hne, map_size_empty_iff. lia. }
  unfold wget_hpkp_db_save. simpl String.eqb. cbv iota zeta. cbn [written_pins].
  rewrite Hsz. unfold wget_hashmap_browse.
  rewrite hashmap_browse_text; [|done|cbn [written_pins]; lia].
  cbn [written_pins fp negb]. rewrite Z.add_0_l, <- save_header_unlines.
  by destruct stat_result as [[| |]|].
Qed.

(** A file that holds, behind the header the serializer writes, the host
    line it writes for an entry: the load runs into the store through
    [num_pins] on that line. *)
Lemma load_written_host_line (clock : nat -> Z) (key : string) (e : wget_hpkp_t)
    (rest : string) (c : ascii) (name : string) (db0 : wget_hpkp_db_t) :
  host_token key -> no_nul key = true ->
  include_subdomains e = 0 \/ include_subdomains e = 1 ->
  wget_hpkp_db_load clock
    (Some (unlines header_lines ++ host_line_text key e ++ NL ++ rest))
    (Some (String c name)) (Some db0)
  = None.
Proof.
  intros Hk Hnul Hi. rewrite load_unfold.
  rewrite file_lines_unlines_app by (by repeat constructor).
  unfold file_lines at 1. rewrite file_lines_from_line.
  2:{ apply host_line_no_newline. by destruct Hk as (_ & ? & _). }
  rewrite append_empty_l. fold (file_lines rest).
  replace (header_lines ++ host_line_text key e :: file_lines rest)%list
    with (firstn 3 header_lines
          ++ "version 1" :: host_line_text key e :: file_lines rest)%list by reflexivity.
  rewrite load_run_comments by (by repeat constructor).
  rewrite load_run_version by done.
  rewrite load_run_overrun; [done | done | |].
  - destruct Hk as (Hne & _ & Hfc & _). unfold host_line_text.
    destruct key; [done | exact Hfc].
  - unfold stores_num_pins.
    rewrite c_string_no_nul by (by apply host_line_no_nul).
    by rewrite (parse_host_line_written _ _ Hk Hi).
Qed.

(** Saving a store that is not empty and loading the file: the load runs
    into the store through [num_pins] on the first record. *)
Lemma save_load_overrun (clock : nat -> Z) (stat_result : option file_kind)
    (readlink_result : string) (c : ascii) (name : string) (db db0 : wget_hpkp_db_t) :
  entries db <> ∅ ->
  browse_order_ok (entries db) ->
  stat_result <> Some S_IFOTHER ->
  Forall (fun kv => host_token (fst kv) /\ no_nul (fst kv) = true
                    /\ (include_subdomains (snd kv) = 0 \/ include_subdomains (snd kv) = 1)
                    /\ pins (snd kv) <> []) (wget_hashmap_order (entries db)) ->
  exists content,
    wget_hpkp_db_save stat_result readlink_result true (Some (String c name)) (Some db)
    = (int_of_uint (total_pins (wget_hashmap_order (entries db)) mod 2 ^ 32),
       [FsWrite (String c name) content])
    /\ wget_hpkp_db_load clock (Some content) (Some (String c name)) (Some db0) = None.
Proof.
  intros Hne Hord Hstat Hall. eexists. split.
  - apply save_text; [done | | done].
    eapply Forall_impl; [exact Hall|]. by intros kv (_ & _ & _ & ?).
  - destruct (wget_hashmap_order (entries db)) as [|[k e] kvs] eqn:E.
    + exfalso. apply Hne. apply map_to_list_empty_iff.
      unfold browse_order_ok in Hord. rewrite E in Hord.
      by apply Permutation_nil in Hord.
    + apply Forall_cons in Hall as [(Hk & Hnul & Hi & _) _]. simpl in Hk, Hnul, Hi.
      cbn [map concat fst snd]. unfold record_lines at 1. cbn [app unlines].
      by apply load_written_host_line.
Qed.

End SaveLoad.

(** * The properties at the sample data *)

Ltac time_t_range :=
  unfold in_time_t, TIME_T_MIN, TIME_T_MAX, current_time, sample_clock; simpl; lia.

Ltac sample_not_expired :=
  unfold not_expired; intros _; split; [time_t_range | vm_compute; discriminate].

Lemma db_consistent_replaced (db : wget_hpkp_db_t) (cand : wget_hpkp_t) :
  db_consistent db -> db_consistent (replaced db cand).
Proof.
  intros Hdb k e. simpl. rewrite lookup_insert. case_decide; [by intros [= <-] | apply Hdb].
Qed.

(** The scenarios of the specification. *)
Example new_admission :
  __wget_hpkp_db_add 2000 wget_hpkp_db_init entry_1 false = Some (WGET_HPKP_OK, store_1).
Proof. reflexivity. Qed.

Example insufficient_pins :
  __wget_hpkp_db_add 2000 wget_hpkp_db_init entry_one_pin false
  = Some (WGET_HPKP_NOT_ENOUGH_PINS, wget_hpkp_db_init).
Proof. reflexivity. Qed.

Example redundant_update :
  __wget_hpkp_db_add 3000 store_1 (sample_entry "example.com" 2000 5000 0 [pin_B; pin_A]) false
  = Some (WGET_HPKP_ENTRY_EXISTS, store_1).
Proof. vm_compute. reflexivity. Qed.

Example real_update :
  __wget_hpkp_db_add 3000 store_1 (sample_entry "example.com" 2000 5000 0 [pin_A; pin_C]) false
  = Some (WGET_HPKP_OK,
          replaced store_1 (sample_entry "example.com" 2000 5000 0 [pin_A; pin_C])).
Proof. vm_compute. reflexivity. Qed.

(** C1: the update test misses a list of pins that has grown.
    [entry_1_grown] is newer than the resident [entry_1], has the same
    [max_age] and the same flag, and carries the pin C besides the
    resident pins A and B: the list of pins has changed and the condition
    of the specification holds, yet the engine answers
    [WGET_HPKP_ENTRY_EXISTS] and keeps the resident entry.  The sibling
    case is caught: with [entry_1_grown] resident, the newer
    [entry_1_shrunk], which has dropped the pin C, replaces it. *)
Theorem add_grown_pin_list_not_updated :
  entries store_1 !! host entry_1_grown = Some entry_1
  /\ max_age entry_1_grown <> 0
  /\ (2 <= length (pins entry_1_grown))%nat
  /\ not_expired (current_time 3000) entry_1_grown
  /\ spec_update_condition entry_1 entry_1_grown
  /\ __wget_hpkp_db_add 3000 store_1 entry_1_grown false
     = Some (WGET_HPKP_ENTRY_EXISTS, store_1)
  /\ __wget_hpkp_db_add 3000 (replaced wget_hpkp_db_init entry_1_grown) entry_1_shrunk false
     = Some (WGET_HPKP_OK,
             replaced (replaced wget_hpkp_db_init entry_1_grown) entry_1_shrunk).
Proof.
  assert (spec_update_condition entry_1 entry_1_grown) as Hspec.
  { split; [simpl; lia|]. right. right. intros Hsub.
    assert (pin_C ∈ pins entry_1) as Hin by (apply Hsub; simpl; set_solver).
    simpl in Hin. apply elem_of_cons in Hin as [E|Hin]; [by vm_compute in E|].
    apply elem_of_cons in Hin as [E|Hin]; [by vm_compute in E|].
    by apply elem_of_nil in Hin. }
  split; [vm_compute; reflexivity|]. split; [simpl; lia|]. split; [simpl; lia|].
  split; [sample_not_expired|]. split; [done|].
  split; vm_compute; reflexivity.
Qed.

Lemma add_expired_rejected_witness :
  __wget_hpkp_db_add 20000 store_1 (sample_entry "example.com" 10000 100 0 [pin_A; pin_C]) true
  = Some (WGET_HPKP_ENTRY_EXPIRED, store_1).
Proof.
  apply add_expired_rejected.
  - time_t_range.
  - time_t_range.
  - simpl. lia.
  - unfold current_time. simpl. lia.
Defined.

Lemma add_deletes_witness :
  exists db',
    __wget_hpkp_db_add 3000 store_1 entry_1_delete false = Some (WGET_HPKP_WAS_DELETED, db')
    /\ entries db' = delete (host entry_1_delete) (entries store_1)
    /\ wget_hashmap_get (entries db') (host entry_1_delete) = None.
Proof.
  apply (add_deletes 3000 store_1 entry_1_delete entry_1).
  - apply db_consistent_replaced, db_consistent_init.
  - vm_compute. reflexivity.
  - unfold not_expired. simpl. lia.
  - left. reflexivity.
Defined.



(** ** The loader on the sample files *)

Lemma store_2_order :
  Forall (fun kv => @host_token reference_collaborators (fst kv) /\ no_nul (fst kv) = true
                    /\ (include_subdomains (snd kv) = 0 \/ include_subdomains (snd kv) = 1)
                    /\ pins (snd kv) <> [])
    (map_to_list (entries store_2)).
Proof.
  apply Forall_forall. intros [k e] Hin%elem_of_map_to_list. simpl in Hin.
  rewrite lookup_insert in Hin. case_decide as E1.
  { injection Hin as <-. subst k. simpl.
    split_and!; try done; [| by left].
    split; [discriminate|]. split; [reflexivity|]. split; [reflexivity|].
    eexists. split; reflexivity. }
  rewrite lookup_insert in Hin. case_decide as E2; [|by rewrite lookup_empty in Hin].
  injection Hin as <-. subst k. simpl.
  split_and!; try done; [| by right].
  split; [discriminate|]. split; [reflexivity|]. split; [reflexivity|].
  eexists. split; reflexivity.
Qed.

Lemma store_2_total_pins : total_pins (map_to_list (entries store_2)) = 4.
Proof.
  simpl entries.
  rewrite (total_pins_perm _ [("example.com"%string, entry_1); ("www.gnu.org"%string, entry_2)]);
    [done|].
  rewrite map_to_list_insert by (by rewrite lookup_insert_ne, lookup_empty).
  by rewrite map_to_list_insert, map_to_list_empty by apply lookup_empty.
Qed.

(** C2: the round trip fails at the load.  The store of [entry_1] with
    the pins A and B and [entry_2] with the pins C and D is saved with
    the return value 4; loading the file written into a fresh store has
    no defined result: on the host line of the first record the parser
    stores the number of pins, the [unsigned long] 2, through the address
    of the 4-byte [num_pins] of the loader. *)
Theorem save_load_round_trip_overrun :
  (exists content,
      @wget_hpkp_db_save reference_collaborators None EmptyString true
        (Some "hpkp.db"%string) (Some store_2)
      = (4, [FsWrite "hpkp.db"%string content])
      /\ @wget_hpkp_db_load reference_collaborators sample_clock (Some content)
           (Some "hpkp.db"%string) (Some wget_hpkp_db_init)
         = None)
  /\ @__wget_hpkp_parse_host_line reference_collaborators
       (host_line_text "www.gnu.org" entry_2) (strlen (host_line_text "www.gnu.org" entry_2))
     = Some {| hl_host := "www.gnu.org"; hl_created := 1200; hl_max_age := 9000;
               hl_include_subdomains := 1; hl_num_pins := 2; hl_retval := 0 |}
  /\ store_ulong sizeof_unsigned_int 2 = None.
Proof.
  split; [|split; vm_compute; reflexivity].
  destruct (@save_load_overrun reference_collaborators sample_clock None EmptyString
              "h"%char "pkp.db"%string store_2 wget_hpkp_db_init)
    as (content & Hs & Hl).
  - simpl. apply insert_non_empty.
  - unfold browse_order_ok. reflexivity.
  - discriminate.
  - exact store_2_order.
  - exists content. split; [|exact Hl]. rewrite Hs.
    change (@wget_hashmap_order reference_collaborators (entries store_2))
      with (map_to_list (entries store_2)).
    by rewrite store_2_total_pins.
Qed.

(** C3: a file of three records that the admission would turn down one
    by one when [entry_1] is resident (out of date, a single pin, a host
    already present).  The load does not get to the admission of the
    first: its host line parses, the parser stores the number of pins
    through the address of the 4-byte [num_pins], and the load has no
    defined result. *)
Theorem load_rejected_records_overrun :
  nth 4 (file_lines file_rejected) EmptyString = host_line_text "old.example.org" entry_old
  /\ @stores_num_pins reference_collaborators (host_line_text "old.example.org" entry_old)
  /\ @wget_hpkp_db_load reference_collaborators sample_clock (Some file_rejected)
       (Some "hpkp.db"%string) (Some store_1)
     = None.
Proof.
  split; [vm_compute; reflexivity|]. split; [|vm_compute; reflexivity].
  eexists. vm_compute. reflexivity.
Qed.

(** C5: in exclusive mode the second candidate for the host of a resident
    entry is answered [WGET_HPKP_ENTRY_EXISTS] and the store is
    unchanged; but the load of a file with two records for one host does
    not get that far: on the host line of the first record the parser
    stores the number of pins through the address of the 4-byte
    [num_pins], and the load has no defined result. *)
Theorem load_duplicate_overrun :
  __wget_hpkp_db_add 2000 store_1 entry_1_again true
  = Some (WGET_HPKP_ENTRY_EXISTS, store_1)
  /\ nth 4 (file_lines file_duplicate) EmptyString = host_line_text "example.com" entry_1
  /\ @stores_num_pins reference_collaborators (host_line_text "example.com" entry_1)
  /\ @wget_hpkp_db_load reference_collaborators sample_clock (Some file_duplicate)
       (Some "hpkp.db"%string) (Some wget_hpkp_db_init)
     = None.
Proof.
  split; [vm_compute; reflexivity|].
  split; [vm_compute; reflexivity|]. split; [|vm_compute; reflexivity].
  eexists. vm_compute. reflexivity.
Qed.

(** C9: a file of two good records and a line that is no record.  The
    load does not get to the malformed line, and does not return
    [WGET_HPKP_ERROR] with the two entries admitted: on the host line of
    the first record the parser stores the number of pins through the
    address of the 4-byte [num_pins], and the load has no defined
    result. *)
Theorem load_broken_overrun :
  nth 4 (file_lines file_broken) EmptyString = host_line_text "example.com" entry_1
  /\ @stores_num_pins reference_collaborators (host_line_text "example.com" entry_1)
  /\ @wget_hpkp_db_load reference_collaborators sample_clock (Some file_broken)
       (Some "hpkp.db"%string) (Some wget_hpkp_db_init)
     = None.
Proof.
  split; [vm_compute; reflexivity|]. split; [|vm_compute; reflexivity].
  eexists. vm_compute. reflexivity.
Qed.

(** * Further properties *)

(** ** The admission engine, case by case *)

(** What a call that returns has done to the store. *)
Lemma add_store_cases (t : Z) (db db' : wget_hpkp_db_t) (cand : wget_hpkp_t) (excl : bool) (r : Z) :
  __wget_hpkp_db_add t db cand excl = Some (r, db') ->
  (r = WGET_HPKP_OK /\ db' = replaced db cand
   /\ max_age cand <> 0 /\ (2 <= length (pins cand))%nat)
  \/ (r = WGET_HPKP_WAS_DELETED /\ excl = false
      /\ exists existing, entries db !! host cand = Some existing
                          /\ entries db' = delete (host existing) (entries db))
  \/ ((r = WGET_HPKP_ENTRY_EXPIRED \/ r = WGET_HPKP_NOT_ENOUGH_PINS
       \/ r = WGET_HPKP_ENTRY_EXISTS \/ r = WGET_HPKP_ERROR) /\ db' = db).
Proof.
  unfold __wget_hpkp_db_add, wget_hashmap_get. cbv zeta.
  assert (negb (max_age cand =? 0) && (wget_vector_size (pins cand) >=? 2) = true ->
          max_age cand <> 0 /\ (2 <= length (pins cand))%nat) as Hok.
  { rewrite andb_true_iff, negb_true_iff, Z.eqb_neq, wget_vector_size_length.
    intros [? Hge]. split; [done|]. destruct (Z.geb_spec (Z.of_nat (length (pins cand))) 2); [lia | done]. }
  destruct (entry_expired (current_time t) cand).
  { intros [= <- <-]. right. right. split; [by left | done]. }
  destruct (entries db !! host cand) as [e|] eqn:E.
  - destruct excl.
    { intros [= <- <-]. right. right. split; [by right; right; left | done]. }
    destruct (negb (max_age cand =? 0) && (wget_vector_size (pins cand) >=? 2)) eqn:Eok.
    { destruct ((created e <? created cand) && _); intros [= <- <-].
      - left. destruct (Hok eq_refl). done.
      - right. right. split; [by right; right; left | done]. }
    destruct ((max_age cand =? 0) || (wget_vector_size (pins cand) =? 0)).
    { intros [= <- <-]. right. left. split; [done|]. split; [done|]. by exists e. }
    destruct (wget_vector_size (pins cand) <? 2); intros [= <- <-]; right; right.
    + split; [by right; left | done].
    + split; [by right; right; right | done].
  - destruct (negb (max_age cand =? 0) && (wget_vector_size (pins cand) >=? 2)) eqn:Eok.
    { intros [= <- <-]. left. destruct (Hok eq_refl). done. }
    destruct (wget_vector_size (pins cand) <? 2); intros [= <- <-]; right; right.
    + split; [by right; left | done].
    + split; [by right; right; right | done].
Qed.

(** X1: a call of the engine that returns gives one of the six result
    codes; the store is unchanged unless the result is [WGET_HPKP_OK],
    after which the host of the candidate maps to the candidate, or
    [WGET_HPKP_WAS_DELETED], after which (entries being stored under
    their hosts) the host of the candidate is absent. *)
Theorem add_outcomes (t : Z) (db db' : wget_hpkp_db_t) (cand : wget_hpkp_t) (excl : bool) (r : Z) :
  db_consistent db ->
  __wget_hpkp_db_add t db cand excl = Some (r, db') ->
  (r = WGET_HPKP_OK /\ entries db' !! host cand = Some cand)
  \/ (r = WGET_HPKP_WAS_DELETED /\ entries db' !! host cand = None)
  \/ ((r = WGET_HPKP_ENTRY_EXPIRED \/ r = WGET_HPKP_NOT_ENOUGH_PINS
       \/ r = WGET_HPKP_ENTRY_EXISTS \/ r = WGET_HPKP_ERROR) /\ db' = db).
Proof.
  intros Hdb Hadd.
  destruct (add_store_cases _ _ _ _ _ _ Hadd)
    as [(-> & -> & _) | [(-> & _ & e & He & Hd) | Hsame]].
  - left. split; [done|]. simpl. apply lookup_insert_eq.
  - right. left. split; [done|]. rewrite Hd, (Hdb _ _ He). apply lookup_delete_eq.
  - right. right. done.
Qed.

(** X2: a call of the engine touches no host but the candidate's. *)
Theorem add_other_hosts_untouched (t : Z) (db db' : wget_hpkp_db_t) (cand : wget_hpkp_t)
    (excl : bool) (r : Z) (k : string) :
  db_consistent db ->
  __wget_hpkp_db_add t db cand excl = Some (r, db') ->
  k <> host cand ->
  entries db' !! k = entries db !! k.
Proof.
  intros Hdb Hadd Hk.
  destruct (add_store_cases _ _ _ _ _ _ Hadd)
    as [(_ & -> & _) | [(_ & _ & e & He & Hd) | (_ & ->)]]; [| |done].
  - simpl. by rewrite lookup_insert_ne.
  - rewrite Hd, (Hdb _ _ He). by rewrite lookup_delete_ne.
Qed.

(** X3: the engine keeps the invariants of the store: every entry stays
    under its own host, with [max_age <> 0] and at least two pins. *)
Theorem add_keeps_invariants (t : Z) (db db' : wget_hpkp_db_t) (cand : wget_hpkp_t)
    (excl : bool) (r : Z) :
  db_consistent db -> residents_valid db ->
  __wget_hpkp_db_add t db cand excl = Some (r, db') ->
  db_consistent db' /\ residents_valid db'.
Proof.
  intros Hdb Hval Hadd. split; [by eapply add_consistent|].
  destruct (add_store_cases _ _ _ _ _ _ Hadd)
    as [(_ & -> & Hm & Hn) | [(_ & _ & e & He & Hd) | (_ & ->)]]; [| |done].
  - intros k e. simpl. rewrite lookup_insert. case_decide; [by intros [= <-] | apply Hval].
  - intros k e'. rewrite Hd, lookup_delete. case_decide; [done | apply Hval].
Qed.

(** C8, as amended: the catch-all [WGET_HPKP_ERROR] is reached, and is
    returned exactly for a candidate with [max_age = 0] and at least two
    pins whose host has no resident entry (with [max_age = 0] the expiry
    test does not apply); the store is unchanged. *)
Theorem add_error_iff (t : Z) (db : wget_hpkp_db_t) (cand : wget_hpkp_t) (excl : bool) :
  __wget_hpkp_db_add t db cand excl = Some (WGET_HPKP_ERROR, db)
  <-> entries db !! host cand = None /\ max_age cand = 0 /\ (2 <= length (pins cand))%nat.
Proof.
  split.
  - unfold __wget_hpkp_db_add, wget_hashmap_get. cbv zeta.
    destruct (entry_expired (current_time t) cand); [done|].
    rewrite wget_vector_size_length.
    destruct (entries db !! host cand) as [e|].
    + destruct excl; [done|].
      destruct (Z.eqb_spec (max_age cand) 0) as [Hm|Hm];
        destruct (Z.geb_spec (Z.of_nat (length (pins cand))) 2);
        destruct (Z.eqb_spec (Z.of_nat (length (pins cand))) 0);
        destruct (Z.ltb_spec (Z.of_nat (length (pins cand))) 2);
        simpl; try done; try lia.
      destruct ((created e <? created cand) && _); done.
    + destruct (Z.eqb_spec (max_age cand) 0) as [Hm|Hm];
        destruct (Z.geb_spec (Z.of_nat (length (pins cand))) 2);
        destruct (Z.ltb_spec (Z.of_nat (length (pins cand))) 2);
        simpl; try done; try lia.
      intros _. split; [done | split; [done | lia]].
  - intros (Habs & Hm & Hn). by apply add_error_case.
Qed.

(** X5: a candidate that is not expired, has [max_age <> 0] and at least
    two pins, and whose host is absent, is adopted: the result is
    [WGET_HPKP_OK], the host maps to the candidate and the store has one
    entry more. *)
Theorem add_fresh_adopted (t : Z) (db : wget_hpkp_db_t) (cand : wget_hpkp_t) (excl : bool) :
  entries db !! host cand = None ->
  not_expired (current_time t) cand ->
  max_age cand <> 0 -> (2 <= length (pins cand))%nat ->
  exists db',
    __wget_hpkp_db_add t db cand excl = Some (WGET_HPKP_OK, db')
    /\ wget_hashmap_get (entries db') (host cand) = Some cand
    /\ wget_hashmap_size (entries db') = wget_hashmap_size (entries db) + 1.
Proof.
  intros Habs Hexp Hm Hn. exists (replaced db cand).
  rewrite (add_absent _ _ _ _ Habs Hexp), wget_vector_size_length.
  destruct (Z.eqb_spec (max_age cand) 0); [done|].
  destruct (Z.geb_spec (Z.of_nat (length (pins cand))) 2); [|lia].
  split; [done|]. split; [apply lookup_insert_eq|].
  unfold wget_hashmap_size. simpl. rewrite map_size_insert_None by done. lia.
Qed.

(** X6: a negative [max_age] is never found expired: such a candidate
    with two pins or more and a fresh host is adopted whatever the clock
    says. *)
Theorem add_negative_max_age (t : Z) (db : wget_hpkp_db_t) (cand : wget_hpkp_t) (excl : bool) :
  max_age cand < 0 ->
  entries db !! host cand = None ->
  (2 <= length (pins cand))%nat ->
  __wget_hpkp_db_add t db cand excl = Some (WGET_HPKP_OK, replaced db cand).
Proof.
  intros Hm Habs Hn. rewrite add_absent; [|done|unfold not_expired; lia].
  rewrite wget_vector_size_length.
  destruct (Z.eqb_spec (max_age cand) 0); [lia|].
  destruct (Z.geb_spec (Z.of_nat (length (pins cand))) 2); [done | lia].
Qed.

(** X7: [WGET_HPKP_NOT_ENOUGH_PINS] is returned exactly for a candidate
    that is not expired and either has fewer than two pins and a fresh
    host, or has exactly one pin, [max_age <> 0] and a resident host in
    the mode that is not exclusive. *)
Theorem add_not_enough_pins_iff (t : Z) (db : wget_hpkp_db_t) (cand : wget_hpkp_t) (excl : bool) :
  not_expired (current_time t) cand ->
  __wget_hpkp_db_add t db cand excl = Some (WGET_HPKP_NOT_ENOUGH_PINS, db)
  <-> (entries db !! host cand = None /\ (length (pins cand) < 2)%nat)
      \/ (is_Some (entries db !! host cand) /\ excl = false
          /\ max_age cand <> 0 /\ length (pins cand) = 1%nat).
Proof.
  intros Hexp. unfold_add Hexp. rewrite wget_vector_size_length.
  destruct (entries db !! host cand) as [e|].
  - destruct excl.
    { split; [done|]. intros [[? _] | (_ & ? & _)]; done. }
    destruct (Z.eqb_spec (max_age cand) 0) as [Hm|Hm];
      destruct (Z.geb_spec (Z.of_nat (length (pins cand))) 2);
      destruct (Z.eqb_spec (Z.of_nat (length (pins cand))) 0);
      destruct (Z.ltb_spec (Z.of_nat (length (pins cand))) 2);
      simpl; try lia;
      try (split; [done | intros [[? _] | (_ & _ & ? & ?)]; (done || lia)]).
    + destruct ((created e <? created cand) && _);
        (split; [done | intros [[? _] | (_ & _ & ? & ?)]; (done || lia)]).
    + split; [|done]. intros _. right. split; [by eexists|]. split; [done|]. split; [done|lia].
  - destruct (Z.eqb_spec (max_age cand) 0) as [Hm|Hm];
      destruct (Z.geb_spec (Z.of_nat (length (pins cand))) 2);
      destruct (Z.ltb_spec (Z.of_nat (length (pins cand))) 2);
      simpl; try lia;
      try (split; [intros _; left; split; [done | lia] | done]);
      try (split; [done | intros [[_ ?] | ([? ?] & _)]; (done || lia)]).
Qed.

(** X8: in exclusive mode the engine never removes or replaces an entry
    and never answers [WGET_HPKP_WAS_DELETED]: every entry of the store
    is still there after the call. *)
Theorem add_exclusive_keeps (t : Z) (db db' : wget_hpkp_db_t) (cand : wget_hpkp_t) (r : Z) :
  __wget_hpkp_db_add t db cand true = Some (r, db') ->
  r <> WGET_HPKP_WAS_DELETED /\ store_included db db'.
Proof.
  intros Hadd.
  destruct (add_exclusive_cases _ _ _ _ _ Hadd) as [(-> & Habs & ->) | (Hr & ->)].
  - split; [done|]. intros k e He. simpl. rewrite lookup_insert_ne; [done | congruence].
  - split; [|by intros k e He]. intros ->.
    destruct (add_store_cases _ _ _ _ _ _ Hadd)
      as [(? & _) | [(_ & ? & _) | ([?|[?|[?|?]]] & _)]]; done.
Qed.

(** ** Pins and candidates *)

Lemma forallb_agree {A : Type} (f g : A -> bool) (l : list A) :
  (forall x, In x l -> f x = g x) -> forallb f l = forallb g l.
Proof.
  induction l as [|x l IH]; intros Hfg; simpl; [done|].
  rewrite (Hfg x) by (by left). rewrite IH; [done|]. intros y Hy. apply Hfg. by right.
Qed.

Lemma cmp_pins_for_firstn (p1 p2 : pin) :
  cmp_pins_for p1 p2 = cmp_pins_for (firstn 32 p1) (firstn 32 p2).
Proof.
  rewrite !cmp_pins_for_forallb. apply forallb_agree. intros i Hi.
  apply in_seq in Hi. unfold byte_at. rewrite !nth_firstn.
  destruct (Nat.ltb_spec i 32); [done | lia].
Qed.

(** X9: [__cmp_pins_cb] answers 0 or 1, and 0 exactly when the first 32
    bytes of the two buffers agree; what follows them is not looked at. *)
Theorem cmp_pins_cb_first_32 (p1 p2 : pin) :
  (32 <= length p1)%nat -> (32 <= length p2)%nat ->
  (__cmp_pins_cb p1 p2 = 0 \/ __cmp_pins_cb p1 p2 = 1)
  /\ (__cmp_pins_cb p1 p2 = 0 <-> firstn 32 p1 = firstn 32 p2).
Proof.
  intros L1 L2. split.
  - unfold __cmp_pins_cb. destruct (cmp_pins_for p1 p2); auto.
  - rewrite cmp_pins_cb_zero, cmp_pins_for_firstn.
    apply cmp_pins_for_eq; rewrite length_firstn; lia.
Qed.

(** X10: the comparison of two pin lists answers 0 or 1, and 0 exactly
    when every pin of the first entry is among the pins of the second. *)
Theorem compare_spkis_zero_iff (hpkp1 hpkp2 : wget_hpkp_t) :
  well_formed_pins hpkp1 -> well_formed_pins hpkp2 ->
  (__wget_hpkp_compare_spkis hpkp1 hpkp2 = 0 \/ __wget_hpkp_compare_spkis hpkp1 hpkp2 = 1)
  /\ (__wget_hpkp_compare_spkis hpkp1 hpkp2 = 0 <-> pins hpkp1 ⊆ pins hpkp2).
Proof.
  intros W1 W2. split; [|by apply compare_spkis_subset].
  unfold __wget_hpkp_compare_spkis. clear W1.
  induction (pins hpkp1) as [|p ps IH]; simpl; [by left|].
  assert (__wget_hpkp_contains_spki_cb hpkp2 p = 0
          \/ __wget_hpkp_contains_spki_cb hpkp2 p = 1) as [E|E].
  { unfold __wget_hpkp_contains_spki_cb. destruct (wget_vector_contains _ _); auto. }
  - rewrite E. exact IH.
  - rewrite E. by right.
Qed.

Section Candidates.
Context `{Collaborators}.

Lemma put_base64_spki_spec (hpkp : wget_hpkp_t) (b64 : string) :
  well_formed_pins hpkp ->
  length (wget_base64_decode_alloc b64) = 32%nat ->
  NoDup (pins hpkp) ->
  exists hpkp',
    __wget_hpkp_db_put_base64_spki hpkp b64 = (0, hpkp')
    /\ NoDup (pins hpkp') /\ well_formed_pins hpkp'
    /\ (forall p, p ∈ pins hpkp' <-> p ∈ pins hpkp \/ p = wget_base64_decode_alloc b64)
    /\ snd (__wget_hpkp_db_put_base64_spki hpkp' b64) = hpkp'.
Proof.
  intros Hwf Hl Hnd. unfold __wget_hpkp_db_put_base64_spki, wget_vector_add_noalloc.
  destruct (wget_vector_contains (pins hpkp) (wget_base64_decode_alloc b64)) eqn:E; simpl.
  - apply (wget_vector_contains_elem _ _ Hwf Hl) in E as Hin.
    exists hpkp. split; [done|]. split; [done|]. split; [done|]. split.
    + intros p. split; [by left | by intros [? | ->]].
    + by rewrite E.
  - assert (wget_base64_decode_alloc b64 ∉ pins hpkp) as Hnin.
    { intros Hin. apply (wget_vector_contains_elem _ _ Hwf Hl) in Hin. congruence. }
    assert (Forall (fun q : pin => length q = 32%nat)
              (pins hpkp ++ [wget_base64_decode_alloc b64])) as Hwf'.
    { apply Forall_app. split; [done | by constructor]. }
    eexists. split; [reflexivity|]. simpl. split.
    { apply NoDup_app. split; [done|]. split; [|apply NoDup_singleton].
      intros p Hp ->%list_elem_of_singleton. done. }
    split; [done|]. split.
    + intros p. rewrite elem_of_app, list_elem_of_singleton. done.
    + assert (wget_vector_contains (pins hpkp ++ [wget_base64_decode_alloc b64])
                (wget_base64_decode_alloc b64) = true) as ->; [|done].
      apply wget_vector_contains_elem; [done | done |].
      apply elem_of_app. right. by apply list_elem_of_singleton.
Qed.

(** X11: [__wget_hpkp_db_put_base64_spki] returns 0 and keeps the pins
    of the entry distinct: the decoded pin is in the list afterwards,
    every pin that was there still is, and putting the same text again
    changes nothing. *)
Theorem put_base64_spki_distinct (hpkp : wget_hpkp_t) (b64 : string) :
  well_formed_pins hpkp ->
  length (wget_base64_decode_alloc b64) = 32%nat ->
  NoDup (pins hpkp) ->
  let hpkp' := snd (__wget_hpkp_db_put_base64_spki hpkp b64) in
  fst (__wget_hpkp_db_put_base64_spki hpkp b64) = 0
  /\ NoDup (pins hpkp')
  /\ (forall p, p ∈ pins hpkp' <-> p ∈ pins hpkp \/ p = wget_base64_decode_alloc b64)
  /\ snd (__wget_hpkp_db_put_base64_spki hpkp' b64) = hpkp'.
Proof.
  intros Hwf Hl Hnd.
  destruct (put_base64_spki_spec hpkp b64 Hwf Hl Hnd) as (hpkp1 & E & ? & ? & ? & ?).
  rewrite E. simpl. done.
Qed.

Lemma browse_put_pins (b64_pins : list string) (hpkp : wget_hpkp_t) :
  well_formed_pins hpkp -> NoDup (pins hpkp) ->
  Forall (fun b => length (wget_base64_decode_alloc b) = 32%nat) b64_pins ->
  let hpkp' := snd (wget_vector_browse_ctx b64_pins __wget_hpkp_db_put_base64_spki hpkp) in
  NoDup (pins hpkp') /\ well_formed_pins hpkp'
  /\ (forall p, p ∈ pins hpkp' <-> p ∈ pins hpkp \/ p ∈ map wget_base64_decode_alloc b64_pins).
Proof.
  revert hpkp; induction b64_pins as [|b l IH]; intros hpkp Hwf Hnd Hall; simpl.
  - split; [done|]. split; [done|]. intros p. split; [by left|].
    intros [? | Hin]; [done | by apply elem_of_nil in Hin].
  - apply Forall_cons in Hall as [Hb Hall].
    destruct (put_base64_spki_spec hpkp b Hwf Hb Hnd) as (hpkp1 & E & Hnd1 & Hwf1 & Hin1 & _).
    rewrite E. simpl.
    destruct (IH hpkp1 Hwf1 Hnd1 Hall) as (? & ? & Hin). split; [done|]. split; [done|].
    intros p. rewrite Hin, Hin1, elem_of_cons. tauto.
Qed.

(** X12: the candidate [wget_hpkp_db_add] builds carries the host, the
    stamp, [max_age] and the flag it was given, and as pins the decoded
    texts without repetition. *)
Theorem candidate_of_fields (now : Z) (h : string) (age incl : Z) (b64_pins : list string) :
  Forall (fun b => length (wget_base64_decode_alloc b) = 32%nat) b64_pins ->
  let cand := candidate_of now h age incl b64_pins in
  host cand = h /\ created cand = now /\ max_age cand = age /\ include_subdomains cand = incl
  /\ NoDup (pins cand)
  /\ (forall p, p ∈ pins cand <-> p ∈ map wget_base64_decode_alloc b64_pins).
Proof.
  intros Hall. unfold candidate_of.
  destruct (browse_put_fields b64_pins (wget_hpkp_new h now age incl)) as (? & ? & ? & ?).
  destruct (browse_put_pins b64_pins (wget_hpkp_new h now age incl)) as (? & _ & Hin);
    [constructor | constructor | done |].
  repeat (split; [done|]). intros p. rewrite Hin. simpl. split; [|tauto].
  intros [Hp | ?]; [by apply elem_of_nil in Hp | done].
Qed.

End Candidates.

(** ** The public entry point *)

Lemma two_distinct_members {A : Type} (l : list A) (a b : A) :
  a ∈ l -> b ∈ l -> a <> b -> (2 <= length l)%nat.
Proof.
  destruct l as [|x [|y l]]; simpl; [by intros ?%elem_of_nil | | lia].
  intros ->%list_elem_of_singleton ->%list_elem_of_singleton. done.
Qed.

Lemma one_member_at_most {A : Type} (l : list A) :
  NoDup l -> (forall a b, a ∈ l -> b ∈ l -> a = b) -> (length l < 2)%nat.
Proof.
  destruct l as [|x [|y l]]; simpl; [lia | lia |].
  intros Hnd Heq. apply NoDup_cons in Hnd as [Hnin _]. exfalso. apply Hnin.
  rewrite (Heq x y); [by left | by left | by right; left].
Qed.

Section PublicAddMore.
Context `{Collaborators}.

Lemma public_add_unfold (t0 t1 : Z) (db : wget_hpkp_db_t) (h : string) (age incl : Z)
    (b64_pins : list string) :
  wget_hpkp_db_add t0 t1 (Some db) (Some h) age incl (Some b64_pins) =
    match __wget_hpkp_db_add t1 db (candidate_of (current_time t0) h age incl b64_pins) false with
    | Some (retval, db') => Some (retval, Some db')
    | None => None
    end.
Proof. reflexivity. Qed.

Lemma candidate_of_spec (now : Z) (h : string) (age incl : Z) (b64_pins : list string) :
  Forall (fun b => length (wget_base64_decode_alloc b) = 32%nat) b64_pins ->
  let cand := candidate_of now h age incl b64_pins in
  host cand = h /\ created cand = now /\ max_age cand = age /\ include_subdomains cand = incl
  /\ NoDup (pins cand)
  /\ (forall p, p ∈ pins cand <-> p ∈ map wget_base64_decode_alloc b64_pins).
Proof.
  intros Hall. unfold candidate_of.
  destruct (browse_put_fields b64_pins (wget_hpkp_new h now age incl)) as (? & ? & ? & ?).
  destruct (browse_put_pins b64_pins (wget_hpkp_new h now age incl)) as (? & _ & Hin);
    [constructor | constructor | done |].
  repeat (split; [done|]). intros p. rewrite Hin. simpl. split; [|tauto].
  intros [Hp | ?]; [by apply elem_of_nil in Hp | done].
Qed.

Lemma candidate_not_expired (t : Z) (h : string) (age incl : Z) (b64_pins : list string) :
  (age > 0 -> in_time_t (current_time t + age)) ->
  not_expired (current_time t) (candidate_of (current_time t) h age incl b64_pins).
Proof.
  intros Hr. unfold candidate_of.
  destruct (browse_put_fields b64_pins (wget_hpkp_new h (current_time t) age incl))
    as (_ & Hc & Hm & _).
  unfold not_expired. rewrite Hc, Hm. simpl. intros Hpos. split; [by apply Hr | lia].
Qed.

(** X13: [wget_hpkp_db_add] for a host without entry, with
    [max_age <> 0] and a list that holds two texts decoding to different
    digests, returns [WGET_HPKP_OK]; the host then maps to the candidate
    built from the arguments, stamped with the clock. *)
Theorem public_add_fresh (t : Z) (db : wget_hpkp_db_t) (h : string) (age incl : Z)
    (b64_pins : list string) (b1 b2 : string) :
  entries db !! h = None ->
  age <> 0 ->
  (age > 0 -> in_time_t (current_time t + age)) ->
  Forall (fun b => length (wget_base64_decode_alloc b) = 32%nat) b64_pins ->
  b1 ∈ b64_pins -> b2 ∈ b64_pins ->
  wget_base64_decode_alloc b1 <> wget_base64_decode_alloc b2 ->
  exists db',
    wget_hpkp_db_add t t (Some db) (Some h) age incl (Some b64_pins)
    = Some (WGET_HPKP_OK, Some db')
    /\ entries db' !! h = Some (candidate_of (current_time t) h age incl b64_pins)
    /\ created (candidate_of (current_time t) h age incl b64_pins) = current_time t.
Proof.
  intros Habs Hage Hr Hall Hb1 Hb2 Hne.
  destruct (candidate_of_spec (current_time t) h age incl b64_pins Hall)
    as (Hh & Hc & Hm & _ & Hnd & Hin).
  set (cand := candidate_of (current_time t) h age incl b64_pins) in *.
  exists (replaced db cand). rewrite public_add_unfold. fold cand.
  rewrite add_absent; [|by rewrite Hh|by apply candidate_not_expired].
  rewrite wget_vector_size_length, Hm.
  destruct (Z.eqb_spec age 0); [done|].
  assert (2 <= length (pins cand))%nat as Hlen.
  { apply (two_distinct_members _ (wget_base64_decode_alloc b1) (wget_base64_decode_alloc b2));
      [| |done]; apply Hin, list_elem_of_fmap; eauto. }
  destruct (Z.geb_spec (Z.of_nat (length (pins cand))) 2); [|lia].
  simpl. split; [done|]. split; [|done]. rewrite Hh. apply lookup_insert_eq.
Qed.

(** X14: [wget_hpkp_db_add] answers [WGET_HPKP_ENTRY_EXPIRED] exactly
    when [max_age > 0] and the clock read by the admission is past the
    stamp, read before, plus [max_age]; the store is then unchanged. *)
Theorem public_add_expired_iff (t0 t1 : Z) (db : wget_hpkp_db_t) (h : string) (age incl : Z)
    (b64_pins : list string) :
  (age > 0 -> in_time_t (current_time t0 + age)) ->
  wget_hpkp_db_add t0 t1 (Some db) (Some h) age incl (Some b64_pins)
    = Some (WGET_HPKP_ENTRY_EXPIRED, Some db)
  <-> age > 0 /\ current_time t0 + age < current_time t1.
Proof.
  intros Hr. rewrite public_add_unfold.
  set (cand := candidate_of (current_time t0) h age incl b64_pins).
  assert (created cand = current_time t0 /\ max_age cand = age) as [Hc Hm].
  { unfold cand, candidate_of.
    by destruct (browse_put_fields b64_pins (wget_hpkp_new h (current_time t0) age incl))
      as (_ & ? & ? & _). }
  assert (entry_expired (current_time t1) cand = true
          <-> age > 0 /\ current_time t0 + age < current_time t1) as Hiff.
  { unfold entry_expired. rewrite Hc, Hm. destruct (Z.gtb_spec age 0) as [Hpos|Hnpos].
    - rewrite time_t_add_in_range by (apply Hr; lia). simpl. rewrite Z.ltb_lt. lia.
    - simpl. split; [done | lia]. }
  split.
  - destruct (__wget_hpkp_db_add t1 db cand false) as [[r d]|] eqn:E; [|done].
    intros [= -> ->]. apply Hiff. by eapply add_expired_inv.
  - intros Hexp%Hiff. unfold __wget_hpkp_db_add. cbv zeta. by rewrite Hexp.
Qed.

(** X15: a candidate that is not expired (with a positive [max_age], the
    deadline, stamp plus [max_age], is a [time_t] and the clock read by
    the admission is not past it), built from texts of 32-byte digests
    that all decode to one digest (or from the empty list), for a host
    without entry: [wget_hpkp_db_add] answers
    [WGET_HPKP_NOT_ENOUGH_PINS] and the store is unchanged. *)
Theorem public_add_one_digest (t0 t1 : Z) (db : wget_hpkp_db_t) (h : string) (age incl : Z)
    (b64_pins : list string) :
  entries db !! h = None ->
  (age > 0 -> in_time_t (current_time t0 + age)
              /\ current_time t1 <= current_time t0 + age) ->
  Forall (fun b => length (wget_base64_decode_alloc b) = 32%nat) b64_pins ->
  (forall b b', b ∈ b64_pins -> b' ∈ b64_pins ->
                wget_base64_decode_alloc b = wget_base64_decode_alloc b') ->
  wget_hpkp_db_add t0 t1 (Some db) (Some h) age incl (Some b64_pins)
  = Some (WGET_HPKP_NOT_ENOUGH_PINS, Some db).
Proof.
  intros Habs Hr Hall Hsame.
  destruct (candidate_of_spec (current_time t0) h age incl b64_pins Hall)
    as (Hh & Hc & Hm & _ & Hnd & Hin).
  set (cand := candidate_of (current_time t0) h age incl b64_pins) in *.
  rewrite public_add_unfold. fold cand.
  rewrite add_absent; [|by rewrite Hh|].
  2:{ unfold not_expired. rewrite Hc, Hm. exact Hr. }
  rewrite wget_vector_size_length.
  assert (length (pins cand) < 2)%nat as Hlen.
  { apply one_member_at_most; [done|]. intros p q Hp%Hin Hq%Hin.
    apply list_elem_of_fmap in Hp as (b & -> & Hb). apply list_elem_of_fmap in Hq as (b' & -> & Hb').
    by apply Hsame. }
  destruct (Z.geb_spec (Z.of_nat (length (pins cand))) 2); [lia|].
  rewrite andb_false_r.
  destruct (Z.ltb_spec (Z.of_nat (length (pins cand))) 2); [done | lia].
Qed.

End PublicAddMore.

(** ** The callbacks of the hash map *)



(** X17: the key comparison of the hash map, [strcmp], answers 0
    exactly for equal strings, and exchanging the arguments changes the
    sign of the answer. *)
Theorem cmp_hpkp_cb_zero_iff (h1 h2 : string) :
  no_nul h1 = true -> no_nul h2 = true ->
  (__cmp_hpkp_cb h1 h2 = 0 <-> h1 = h2)
  /\ __cmp_hpkp_cb h2 h1 = - __cmp_hpkp_cb h1 h2.
Proof.
  unfold __cmp_hpkp_cb. revert h2; induction h1 as [|c1 h1 IH]; intros [|c2 h2] N1 N2; simpl in *.
  - done.
  - apply andb_true_iff in N2 as [Hc _]. apply negb_true_iff, Z.eqb_neq in Hc.
    split; [split; [lia | done] | lia].
  - apply andb_true_iff in N1 as [Hc _]. apply negb_true_iff, Z.eqb_neq in Hc.
    split; [split; [lia | done] | lia].
  - apply andb_true_iff in N1 as [Hc1 N1]. apply andb_true_iff in N2 as [Hc2 N2].
    apply negb_true_iff in Hc1, Hc2. rewrite (Z.eqb_sym (char_code c2)).
    destruct (Z.eqb_spec (char_code c1) (char_code c2)) as [Ec|Ec].
    + rewrite <- Ec, Hc1. destruct (IH h2 N1 N2) as [Hz Hs]. split; [|done].
      assert (c1 = c2) as ->.
      { unfold char_code in Ec. apply Nat2Z.inj in Ec.
        by rewrite <- (ascii_nat_embedding c1), <- (ascii_nat_embedding c2), Ec. }
      rewrite Hz. split; [by intros -> | by intros [= ->]].
    + split; [|lia]. split; [lia | intros [= -> _]; done].
Qed.

(** ** The tokens of the parser *)

(** X18: on a string of digits without leading zero, followed by a
    blank, a tab or the end of the line, [__parse_number_unsigned]
    succeeds, leaves the rest, and stores the decimal value, or
    [ULONG_MAX] when the value does not fit an [unsigned long]. *)
Theorem parse_number_unsigned_canonical (ds rest : string) (len : Z) :
  canonical_digits ds ->
  Z.of_nat (String.length ds) <= len ->
  at_space_or_end rest = true ->
  __parse_number_unsigned (ds ++ rest)%string len
  = Some (Z.min (digits_value 0 ds) ULONG_MAX, rest).
Proof.
  intros (Hd & Hne & Hz) Hlen Hrest. unfold __parse_number_unsigned.
  rewrite (parse_number_for_digits _ _ _ _ Hd) by (done || lia).
  rewrite append_empty_l. destruct ds as [|d0 ds']; [done|].
  destruct (Z.eqb_spec (char_code d0) 48) as [E0|]; [|done].
  by rewrite (Hz d0 ds' eq_refl E0).
Qed.

Lemma parse_number_for_stray (n : nat) (ds rest dst : string) (c : ascii) :
  all_digits ds = true -> isdigit c = false -> isspace c = false ->
  (String.length ds < n)%nat ->
  parse_number_for n (ds ++ String c rest)%string dst = None.
Proof.
  revert n dst; induction ds as [|d ds IH]; intros n dst Hd Hc1 Hc2 Hn.
  - rewrite append_empty_l. destruct n as [|n]; [simpl in Hn; lia|]. simpl. by rewrite Hc1, Hc2.
  - simpl in Hd, Hn. apply andb_true_iff in Hd as [Hd0 Hd].
    destruct n as [|n]; [lia|]. rewrite append_cons. simpl. rewrite Hd0.
    apply IH; (done || lia).
Qed.

(** X19: [__parse_number_unsigned] fails on a number with a leading
    zero and more digits, and on digits followed by a character that is
    neither a digit, a blank nor a tab (a sign, a letter, a dot). *)
Theorem parse_number_unsigned_rejects (ds rest : string) (c : ascii) (len : Z) :
  all_digits ds = true -> ds <> EmptyString ->
  Z.of_nat (String.length ds) < len ->
  (at_space_or_end rest = true ->
   __parse_number_unsigned (String (ascii_of_nat 48) ds ++ rest)%string len = None)
  /\ (isdigit c = false -> isspace c = false ->
      __parse_number_unsigned (ds ++ String c rest)%string len = None).
Proof.
  intros Hd Hne Hlen. split.
  - intros Hrest. unfold __parse_number_unsigned.
    rewrite (parse_number_for_digits _ (String (ascii_of_nat 48) ds)); [| |simpl; lia|done].
    + rewrite append_empty_l. simpl. by rewrite (eqb_empty_false _ Hne).
    + simpl. by rewrite Hd.
  - intros Hc1 Hc2. unfold __parse_number_unsigned.
    rewrite parse_number_for_stray; (done || lia).
Qed.

(** X20: [__next_token] skips blanks and tabs and nothing else; it
    answers 0 exactly when nothing else is left. *)
Theorem next_token_skips_blanks (ws s : string) :
  blank_run ws = true -> at_space_or_end s = false \/ s = EmptyString ->
  __next_token (ws ++ s)%string = (negb (String.eqb s EmptyString), s).
Proof.
  intros Hws Hs. induction ws as [|c ws IH].
  - rewrite append_empty_l. destruct s as [|c s]; [done|].
    destruct Hs as [Hs | Hs]; [|done]. simpl in *. by rewrite Hs.
  - simpl in Hws. apply andb_true_iff in Hws as [Hc Hws].
    rewrite append_cons. simpl. rewrite Hc. simpl. by apply IH.
Qed.

Lemma scanf_skip_space_run (ws s : string) :
  space_run ws = true -> scanf_skip_space (ws ++ s)%string = scanf_skip_space s.
Proof.
  induction ws as [|c ws IH]; [done|]. intros [Hc Hws]%andb_true_iff.
  rewrite append_cons. simpl. rewrite Hc. by apply IH.
Qed.

Section Lines.
Context `{Collaborators}.

(** X21: on the host line the serializer writes for an entry,
    [__wget_hpkp_parse_host_line] returns 0 after it has stored the key
    and the fields of the entry through its out parameters, the number of
    pins as an [unsigned long]: a store of 8 bytes, which an object of
    the size of an [unsigned long] holds and the [unsigned int] the
    parameter [num_pins] is declared to point to does not. *)
Theorem parse_host_line_round_trip (key : string) (e : wget_hpkp_t) :
  host_token key ->
  in_time_t (created e) -> in_time_t (max_age e) ->
  include_subdomains e = 0 \/ include_subdomains e = 1 ->
  0 < Z.of_nat (length (pins e)) < 2 ^ 32 ->
  __wget_hpkp_parse_host_line (host_line_text key e) (strlen (host_line_text key e))
  = Some {| hl_host := key; hl_created := created e; hl_max_age := max_age e;
            hl_include_subdomains := include_subdomains e;
            hl_num_pins := Z.of_nat (length (pins e));
            hl_retval := 0 |}
  /\ store_ulong sizeof_unsigned_long (Z.of_nat (length (pins e)))
     = Some (Z.of_nat (length (pins e)))
  /\ store_ulong sizeof_unsigned_int (Z.of_nat (length (pins e))) = None.
Proof. intros Hk Hc Hm Hi Hn. split; [by apply parse_host_line_text | done]. Qed.

(** X22: a host line whose first token the IRI parser rejects, or
    flags as an IP literal, does not parse, whatever follows the
    token. *)
Theorem parse_host_line_rejects_host (h rest : string) (len : Z) :
  h <> EmptyString -> no_space h = true ->
  wget_iri_parse h = None
  \/ (exists iri, wget_iri_parse h = Some iri /\ is_ip_address iri = true) ->
  __wget_hpkp_parse_host_line (h ++ TAB ++ rest)%string len = None.
Proof.
  intros Hne Hsp Hbad. unfold __wget_hpkp_parse_host_line.
  rewrite (parse_hostname_token _ _ _ Hne Hsp).
  destruct Hbad as [-> | (iri & -> & ->)]; done.
Qed.

(** X23: on a line made of a token, white space, a second token and
    possibly more behind white space, [__wget_hpkp_parse_pin_line] gives
    the second token when the first is [sha-256] and fails otherwise. *)
Theorem parse_pin_line_tokens (magic ws tok rest : string) (len : Z) :
  magic <> EmptyString -> no_space magic = true ->
  ws <> EmptyString -> space_run ws = true ->
  tok <> EmptyString -> no_space tok = true ->
  token_end rest = true ->
  __wget_hpkp_parse_pin_line (magic ++ ws ++ tok ++ rest)%string len
  = if String.eqb magic "sha-256" then Some tok else None.
Proof.
  intros Hm1 Hm2 Hw1 Hw2 Ht1 Ht2 Hrest.
  unfold __wget_hpkp_parse_pin_line, sscanf_s_ms.
  rewrite (scanf_skip_space_token _ _ Hm1 Hm2).
  assert (token_end (ws ++ tok ++ rest)%string = true) as Hend.
  { destruct ws as [|c ws]; [done|]. simpl in Hw2. apply andb_true_iff in Hw2 as [Hc _].
    rewrite append_cons. exact Hc. }
  rewrite (scanf_token_append _ _ Hm2 Hend), (eqb_empty_false _ Hm1).
  rewrite (scanf_skip_space_run _ _ Hw2), (scanf_skip_space_token _ _ Ht1 Ht2).
  rewrite (scanf_token_append _ _ Ht2 Hrest), (eqb_empty_false _ Ht1).
  by destruct (String.eqb magic "sha-256").
Qed.



End Lines.

(** ** The loader on any file *)

Section LoadAny.
Context `{Collaborators}.

(** X25: whatever the file holds, a load that has a result (no host line
    of the file has taken the parser to the store through [num_pins])
    returns [WGET_HPKP_OK] or [WGET_HPKP_ERROR] and leaves the store as
    it was. *)
Theorem load_defined_keeps_store (clock : nat -> Z) (content : string) (c : ascii)
    (name : string) (db : wget_hpkp_db_t) (r : Z) (result : option wget_hpkp_db_t) :
  wget_hpkp_db_load clock (Some content) (Some (String c name)) (Some db) = Some (r, result) ->
  result = Some db /\ (r = WGET_HPKP_OK \/ r = WGET_HPKP_ERROR).
Proof.
  rewrite load_unfold. unfold load_run.
  destruct (load_loop _ clock (load_start db) (file_lines content)) as [st'| |] eqn:E;
    [|done|done].
  apply load_loop_keeps in E as [Hdb Hr]. simpl in Hdb, Hr.
  intros [= <- <-]. split; [by rewrite Hdb|].
  destruct Hr as [-> | ->]; [by left | by right].
Qed.

(** X26: a file of comment lines only (the empty file too) loads with
    [WGET_HPKP_OK]; a file whose first line that is no comment does not
    read [version 1] as a C string loads with [WGET_HPKP_ERROR]; the
    store is unchanged in both cases. *)
Theorem load_version_line (clock : nat -> Z) (content : string) (c : ascii) (name : string)
    (db : wget_hpkp_db_t) (pre : list string) :
  comment_lines pre ->
  (file_lines content = pre ->
   wget_hpkp_db_load clock (Some content) (Some (String c name)) (Some db)
   = Some (WGET_HPKP_OK, Some db))
  /\ (forall buf rest,
        file_lines content = pre ++ buf :: rest ->
        first_char_is buf 35 = false -> c_string buf <> "version 1"%string ->
        wget_hpkp_db_load clock (Some content) (Some (String c name)) (Some db)
        = Some (WGET_HPKP_ERROR, Some db)).
Proof.
  intros Hpre. split.
  - intros E. rewrite load_unfold, E, <- (app_nil_r pre).
    by rewrite load_run_comments, load_run_eof.
  - intros buf rest E Hc Hv. rewrite load_unfold, E.
    by rewrite load_run_comments, load_run_no_version.
Qed.

(** X27: behind the version line, a line that is empty as a C string
    where the first record is due ends the load with [WGET_HPKP_ERROR];
    the store is unchanged. *)
Theorem load_blank_line (clock : nat -> Z) (content : string) (c : ascii) (name : string)
    (db : wget_hpkp_db_t) (pre mid : list string) (buf : string) (rest : list string) :
  comment_lines pre -> comment_lines mid ->
  file_lines content = pre ++ "version 1"%string :: mid ++ buf :: rest ->
  c_string buf = EmptyString ->
  wget_hpkp_db_load clock (Some content) (Some (String c name)) (Some db)
  = Some (WGET_HPKP_ERROR, Some db).
Proof.
  intros Hpre Hmid E Hb. rewrite load_unfold, E.
  rewrite load_run_comments, load_run_version, load_run_comments by done.
  rewrite load_run_no_host_line; [done | done | | by rewrite Hb].
  destruct buf as [|ch buf]; [done|]. simpl in Hb. simpl.
  destruct (Z.eqb_spec (char_code ch) 0) as [-> | _]; done.
Qed.

(** ** The serializer on any store *)

(** X28: saving a store without entries writes nothing and returns 0;
    when [stat] finds a regular file the target is removed, and when the
    target does not exist or is of another kind that [stat] reports
    nothing is removed. *)
Theorem save_empty_store (stat_result : option file_kind) (readlink_result : string)
    (fopen_ok : bool) (c : ascii) (name : string) (db : wget_hpkp_db_t) :
  entries db = ∅ ->
  stat_result <> Some S_IFLNK ->
  wget_hpkp_db_save stat_result readlink_result fopen_ok (Some (String c name)) (Some db)
  = (0, match stat_result with
        | Some S_IFREG => [FsUnlink (String c name)]
        | _ => []
        end).
Proof.
  intros E Hs. unfold wget_hpkp_db_save, wget_hashmap_size. rewrite E, map_size_empty.
  by destruct stat_result as [[| |]|].
Qed.


(** X30: saving a store that is not empty, whose entries are kept under
    host tokens, have the flag 0 or 1 and at least one pin, writes a file
    on which the load has no defined result, whatever store it loads
    into: on the host line of the first record the parser stores the
    number of pins through the address of the 4-byte [num_pins]. *)
Theorem save_then_load_overruns (clock : nat -> Z) (stat_result : option file_kind)
    (readlink_result : string) (c : ascii) (name : string) (db db0 : wget_hpkp_db_t) :
  entries db <> ∅ ->
  browse_order_ok (entries db) ->
  stat_result <> Some S_IFOTHER ->
  Forall (fun kv => host_token (fst kv) /\ no_nul (fst kv) = true
                    /\ (include_subdomains (snd kv) = 0 \/ include_subdomains (snd kv) = 1)
                    /\ pins (snd kv) <> []) (wget_hashmap_order (entries db)) ->
  exists content,
    wget_hpkp_db_save stat_result readlink_result true (Some (String c name)) (Some db)
    = (int_of_uint (total_pins (wget_hashmap_order (entries db)) mod 2 ^ 32),
       [FsWrite (String c name) content])
    /\ wget_hpkp_db_load clock (Some content) (Some (String c name)) (Some db0) = None.
Proof. apply save_load_overrun. Qed.

End LoadAny.

(** * The further properties at the sample data *)

Lemma residents_valid_init : residents_valid wget_hpkp_db_init.
Proof. intros k e. simpl. by rewrite lookup_empty. Qed.

Lemma residents_valid_replaced (db : wget_hpkp_db_t) (cand : wget_hpkp_t) :
  max_age cand <> 0 -> (2 <= length (pins cand))%nat ->
  residents_valid db -> residents_valid (replaced db cand).
Proof.
  intros Hm Hn Hdb k e. simpl. rewrite lookup_insert. case_decide; [by intros [= <-] | apply Hdb].
Qed.

Lemma store_1_consistent : db_consistent store_1.
Proof. apply db_consistent_replaced, db_consistent_init. Qed.

Lemma store_2_consistent : db_consistent store_2.
Proof.
  apply (db_consistent_replaced (replaced wget_hpkp_db_init entry_2) entry_1).
  apply db_consistent_replaced, db_consistent_init.
Qed.

Lemma store_1_valid : residents_valid store_1.
Proof. apply residents_valid_replaced; [done | simpl; lia | apply residents_valid_init]. Qed.

Lemma add_outcomes_witness :
  (WGET_HPKP_WAS_DELETED = WGET_HPKP_OK
   /\ entries (without_entry_1 store_1) !! host entry_1_delete = Some entry_1_delete)
  \/ (WGET_HPKP_WAS_DELETED = WGET_HPKP_WAS_DELETED
      /\ entries (without_entry_1 store_1) !! host entry_1_delete = None)
  \/ ((WGET_HPKP_WAS_DELETED = WGET_HPKP_ENTRY_EXPIRED
       \/ WGET_HPKP_WAS_DELETED = WGET_HPKP_NOT_ENOUGH_PINS
       \/ WGET_HPKP_WAS_DELETED = WGET_HPKP_ENTRY_EXISTS
       \/ WGET_HPKP_WAS_DELETED = WGET_HPKP_ERROR)
      /\ without_entry_1 store_1 = store_1).
Proof.
  apply (add_outcomes 3000 store_1 (without_entry_1 store_1) entry_1_delete false).
  - exact store_1_consistent.
  - vm_compute. reflexivity.
Defined.

Lemma add_other_hosts_untouched_witness :
  entries (without_entry_1 store_2) !! "www.gnu.org"%string
  = entries store_2 !! "www.gnu.org"%string.
Proof.
  apply (add_other_hosts_untouched 3000 store_2 (without_entry_1 store_2) entry_1_delete false
           WGET_HPKP_WAS_DELETED).
  - exact store_2_consistent.
  - vm_compute. reflexivity.
  - discriminate.
Defined.

Lemma add_keeps_invariants_witness :
  db_consistent (replaced store_1 entry_2) /\ residents_valid (replaced store_1 entry_2).
Proof.
  apply (add_keeps_invariants 2000 store_1 (replaced store_1 entry_2) entry_2 false WGET_HPKP_OK).
  - exact store_1_consistent.
  - exact store_1_valid.
  - vm_compute. reflexivity.
Defined.

Lemma add_error_iff_witness :
  __wget_hpkp_db_add 3000 wget_hpkp_db_init entry_1_delete true
  = Some (WGET_HPKP_ERROR, wget_hpkp_db_init).
Proof.
  apply (proj2 (add_error_iff 3000 wget_hpkp_db_init entry_1_delete true)).
  split; [reflexivity|]. split; [reflexivity | simpl; lia].
Defined.

Lemma add_fresh_adopted_witness :
  exists db',
    __wget_hpkp_db_add 2000 wget_hpkp_db_init entry_1 false = Some (WGET_HPKP_OK, db')
    /\ wget_hashmap_get (entries db') (host entry_1) = Some entry_1
    /\ wget_hashmap_size (entries db') = wget_hashmap_size (entries wget_hpkp_db_init) + 1.
Proof.
  apply add_fresh_adopted.
  - reflexivity.
  - sample_not_expired.
  - discriminate.
  - simpl. lia.
Defined.

Lemma add_negative_max_age_witness :
  __wget_hpkp_db_add 1000000000000 wget_hpkp_db_init entry_negative false
  = Some (WGET_HPKP_OK, replaced wget_hpkp_db_init entry_negative).
Proof.
  apply add_negative_max_age.
  - simpl. lia.
  - reflexivity.
  - simpl. lia.
Defined.

Lemma add_not_enough_pins_iff_witness :
  __wget_hpkp_db_add 3000 store_1 entry_1_one_pin false
  = Some (WGET_HPKP_NOT_ENOUGH_PINS, store_1).
Proof.
  apply (proj2 (add_not_enough_pins_iff 3000 store_1 entry_1_one_pin false
                  ltac:(sample_not_expired))).
  right. split; [eexists; vm_compute; reflexivity|].
  split; [reflexivity|]. split; [discriminate | reflexivity].
Defined.

Lemma add_exclusive_keeps_witness :
  WGET_HPKP_OK <> WGET_HPKP_WAS_DELETED /\ store_included store_1 (replaced store_1 entry_2).
Proof.
  apply (add_exclusive_keeps 2000 store_1 (replaced store_1 entry_2) entry_2 WGET_HPKP_OK).
  vm_compute. reflexivity.
Defined.

Lemma cmp_pins_cb_first_32_witness :
  (__cmp_pins_cb pin_A pin_B = 0 \/ __cmp_pins_cb pin_A pin_B = 1)
  /\ (__cmp_pins_cb pin_A pin_B = 0 <-> firstn 32 pin_A = firstn 32 pin_B).
Proof. apply cmp_pins_cb_first_32; simpl; lia. Defined.

Lemma compare_spkis_zero_iff_witness :
  (__wget_hpkp_compare_spkis entry_1 entry_1_grown = 0
   \/ __wget_hpkp_compare_spkis entry_1 entry_1_grown = 1)
  /\ (__wget_hpkp_compare_spkis entry_1 entry_1_grown = 0
      <-> pins entry_1 ⊆ pins entry_1_grown).
Proof. apply compare_spkis_zero_iff; repeat constructor. Defined.

Ltac sample_decoded_32 :=
  repeat (apply Forall_cons_2; [vm_compute; reflexivity|]); apply Forall_nil_2.

Lemma put_base64_spki_distinct_witness :
  fst (@__wget_hpkp_db_put_base64_spki reference_collaborators entry_1 (base64_encode pin_C)) = 0
  /\ NoDup (pins (snd (@__wget_hpkp_db_put_base64_spki reference_collaborators entry_1
                         (base64_encode pin_C))))
  /\ (forall p,
        p ∈ pins (snd (@__wget_hpkp_db_put_base64_spki reference_collaborators entry_1
                         (base64_encode pin_C)))
        <-> p ∈ pins entry_1 \/ p = base64_decode (base64_encode pin_C))
  /\ snd (@__wget_hpkp_db_put_base64_spki reference_collaborators
            (snd (@__wget_hpkp_db_put_base64_spki reference_collaborators entry_1
                    (base64_encode pin_C)))
            (base64_encode pin_C))
     = snd (@__wget_hpkp_db_put_base64_spki reference_collaborators entry_1
              (base64_encode pin_C)).
Proof.
  apply (@put_base64_spki_distinct reference_collaborators entry_1 (base64_encode pin_C)).
  - repeat constructor.
  - vm_compute. reflexivity.
  - apply (bool_decide_unpack _). vm_compute. reflexivity.
Defined.

Lemma candidate_of_fields_witness :
  host (@candidate_of reference_collaborators 2000 "example.com" 5000 1 b64_ABA)
  = "example.com"%string
  /\ created (@candidate_of reference_collaborators 2000 "example.com" 5000 1 b64_ABA) = 2000
  /\ max_age (@candidate_of reference_collaborators 2000 "example.com" 5000 1 b64_ABA) = 5000
  /\ include_subdomains (@candidate_of reference_collaborators 2000 "example.com" 5000 1 b64_ABA)
     = 1
  /\ NoDup (pins (@candidate_of reference_collaborators 2000 "example.com" 5000 1 b64_ABA))
  /\ (forall p,
        p ∈ pins (@candidate_of reference_collaborators 2000 "example.com" 5000 1 b64_ABA)
        <-> p ∈ map base64_decode b64_ABA).
Proof.
  apply (@candidate_of_fields reference_collaborators 2000 "example.com"%string 5000 1 b64_ABA).
  sample_decoded_32.
Defined.

Lemma public_add_fresh_witness :
  exists db',
    @wget_hpkp_db_add reference_collaborators 2000 2000 (Some wget_hpkp_db_init)
      (Some "example.com"%string) 5000 0 (Some b64_ABA)
    = Some (WGET_HPKP_OK, Some db')
    /\ entries db' !! "example.com"%string
       = Some (@candidate_of reference_collaborators (current_time 2000) "example.com" 5000 0
                 b64_ABA)
    /\ created (@candidate_of reference_collaborators (current_time 2000) "example.com" 5000 0
                  b64_ABA)
       = current_time 2000.
Proof.
  apply (@public_add_fresh reference_collaborators 2000 wget_hpkp_db_init "example.com"%string
           5000 0 b64_ABA (base64_encode pin_A) (base64_encode pin_B)).
  - reflexivity.
  - discriminate.
  - intros _. time_t_range.
  - sample_decoded_32.
  - apply list_elem_of_here.
  - apply list_elem_of_further, list_elem_of_here.
  - vm_compute. discriminate.
Defined.

Lemma public_add_expired_iff_witness :
  @wget_hpkp_db_add reference_collaborators 1000 9000 (Some store_1)
    (Some "example.com"%string) 100 0 (Some b64_ABA)
  = Some (WGET_HPKP_ENTRY_EXPIRED, Some store_1).
Proof.
  apply (proj2 (@public_add_expired_iff reference_collaborators 1000 9000 store_1
                  "example.com"%string 100 0 b64_ABA ltac:(intros _; time_t_range))).
  split; [lia | unfold current_time; simpl; lia].
Defined.

Lemma public_add_one_digest_witness :
  @wget_hpkp_db_add reference_collaborators 2000 2003 (Some wget_hpkp_db_init)
    (Some "example.com"%string) 5000 0 (Some [base64_encode pin_A; base64_encode pin_A])
  = Some (WGET_HPKP_NOT_ENOUGH_PINS, Some wget_hpkp_db_init).
Proof.
  apply public_add_one_digest.
  - reflexivity.
  - intros _. split; [time_t_range | vm_compute; discriminate].
  - sample_decoded_32.
  - intros b b' Hb Hb'.
    assert (forall x, x ∈ [base64_encode pin_A; base64_encode pin_A] -> x = base64_encode pin_A)
      as Hone.
    { intros x Hx. apply elem_of_cons in Hx as [-> | Hx]; [done|].
      apply elem_of_cons in Hx as [-> | Hx]; [done|]. by apply elem_of_nil in Hx. }
    by rewrite (Hone b Hb), (Hone b' Hb').
Defined.


Lemma cmp_hpkp_cb_zero_iff_witness :
  (__cmp_hpkp_cb "example.com" "example.org" = 0 <-> "example.com"%string = "example.org"%string)
  /\ __cmp_hpkp_cb "example.org" "example.com" = - __cmp_hpkp_cb "example.com" "example.org".
Proof. apply cmp_hpkp_cb_zero_iff; reflexivity. Defined.

Lemma parse_number_unsigned_canonical_witness :
  __parse_number_unsigned ("99999999999999999999999" ++ TAB ++ "1")%string 30
  = Some (Z.min (digits_value 0 "99999999999999999999999") ULONG_MAX, (TAB ++ "1")%string).
Proof.
  apply parse_number_unsigned_canonical.
  - split; [reflexivity|]. split; [discriminate|].
    intros c ds' [= <- _] Hc. vm_compute in Hc. discriminate.
  - simpl. lia.
  - reflexivity.
Defined.

Lemma parse_number_unsigned_rejects_witness :
  __parse_number_unsigned (String (ascii_of_nat 48) "7" ++ TAB)%string 10 = None
  /\ __parse_number_unsigned ("7" ++ String "x" TAB)%string 10 = None.
Proof.
  destruct (parse_number_unsigned_rejects "7" TAB "x" 10) as [Hzero Hstray].
  - reflexivity.
  - discriminate.
  - simpl. lia.
  - split; [apply Hzero; reflexivity | apply Hstray; reflexivity].
Defined.

Lemma next_token_skips_blanks_witness :
  __next_token ((" " ++ TAB ++ " ") ++ "5000")%string
  = (negb (String.eqb "5000" EmptyString), "5000"%string).
Proof. apply next_token_skips_blanks; [reflexivity | left; reflexivity]. Defined.

Lemma sample_host_token : @host_token reference_collaborators "example.com".
Proof.
  split; [discriminate|]. split; [reflexivity|]. split; [reflexivity|].
  eexists. split; reflexivity.
Qed.

Lemma parse_host_line_round_trip_witness :
  @__wget_hpkp_parse_host_line reference_collaborators (host_line_text "example.com" entry_1)
    (strlen (host_line_text "example.com" entry_1))
  = Some {| hl_host := "example.com"; hl_created := created entry_1;
            hl_max_age := max_age entry_1;
            hl_include_subdomains := include_subdomains entry_1;
            hl_num_pins := Z.of_nat (length (pins entry_1));
            hl_retval := 0 |}
  /\ store_ulong sizeof_unsigned_long (Z.of_nat (length (pins entry_1)))
     = Some (Z.of_nat (length (pins entry_1)))
  /\ store_ulong sizeof_unsigned_int (Z.of_nat (length (pins entry_1))) = None.
Proof.
  apply (@parse_host_line_round_trip reference_collaborators).
  - exact sample_host_token.
  - time_t_range.
  - time_t_range.
  - by left.
  - simpl. lia.
Defined.

Lemma parse_host_line_rejects_host_witness :
  @__wget_hpkp_parse_host_line reference_collaborators
    ("10.0.0.1" ++ TAB ++ "1000" ++ TAB ++ "5000" ++ TAB ++ "0" ++ TAB ++ "2")%string 30
  = None.
Proof.
  apply (@parse_host_line_rejects_host reference_collaborators).
  - discriminate.
  - reflexivity.
  - right. eexists. split; reflexivity.
Defined.

Lemma parse_pin_line_tokens_witness :
  __wget_hpkp_parse_pin_line
    ("sha-512" ++ "  " ++ base64_encode pin_A ++ EmptyString)%string 60
  = if String.eqb "sha-512" "sha-256" then Some (base64_encode pin_A) else None.
Proof.
  apply parse_pin_line_tokens; first [discriminate | reflexivity | vm_compute; discriminate].
Defined.


Lemma load_defined_keeps_store_witness :
  Some store_1 = Some store_1
  /\ (WGET_HPKP_ERROR = WGET_HPKP_OK \/ WGET_HPKP_ERROR = WGET_HPKP_ERROR).
Proof.
  apply (@load_defined_keeps_store reference_collaborators sample_clock file_ip_literal
           "h"%char "pkp.db"%string store_1 WGET_HPKP_ERROR (Some store_1)).
  vm_compute. reflexivity.
Defined.

Lemma load_version_line_witness :
  @wget_hpkp_db_load reference_collaborators sample_clock (Some ("# nothing" ++ NL)%string)
    (Some "hpkp.db"%string) (Some store_1)
  = Some (WGET_HPKP_OK, Some store_1)
  /\ @wget_hpkp_db_load reference_collaborators sample_clock
       (Some ("# nothing" ++ NL ++ "version 2" ++ NL)%string)
       (Some "hpkp.db"%string) (Some store_1)
     = Some (WGET_HPKP_ERROR, Some store_1).
Proof.
  split.
  - apply (proj1 (@load_version_line reference_collaborators sample_clock
                    ("# nothing" ++ NL)%string "h"%char "pkp.db"%string store_1
                    ["# nothing"%string] ltac:(repeat constructor))).
    reflexivity.
  - apply (proj2 (@load_version_line reference_collaborators sample_clock
                    ("# nothing" ++ NL ++ "version 2" ++ NL)%string "h"%char "pkp.db"%string
                    store_1 ["# nothing"%string] ltac:(repeat constructor))
             "version 2"%string []).
    + reflexivity.
    + reflexivity.
    + vm_compute. discriminate.
Defined.

Lemma load_blank_line_witness :
  @wget_hpkp_db_load reference_collaborators sample_clock (Some file_blank)
    (Some "hpkp.db"%string) (Some store_1)
  = Some (WGET_HPKP_ERROR, Some store_1).
Proof.
  apply (@load_blank_line reference_collaborators sample_clock file_blank "h"%char
           "pkp.db"%string store_1 (firstn 3 header_lines) [] EmptyString
           [host_line_text "example.com" entry_1]).
  - by repeat constructor.
  - constructor.
  - vm_compute. reflexivity.
  - reflexivity.
Defined.

Lemma save_empty_store_witness :
  @wget_hpkp_db_save reference_collaborators (Some S_IFREG) EmptyString true
    (Some "hpkp.db"%string) (Some wget_hpkp_db_init)
  = (0, [FsUnlink "hpkp.db"%string]).
Proof.
  apply (@save_empty_store reference_collaborators (Some S_IFREG) EmptyString true "h"%char
           "pkp.db"%string wget_hpkp_db_init).
  - reflexivity.
  - discriminate.
Defined.


Lemma save_then_load_overruns_witness :
  exists content,
    @wget_hpkp_db_save reference_collaborators None EmptyString true
      (Some "hpkp.db"%string) (Some store_2)
    = (int_of_uint (total_pins (map_to_list (entries store_2)) mod 2 ^ 32),
       [FsWrite "hpkp.db"%string content])
    /\ @wget_hpkp_db_load reference_collaborators sample_clock (Some content)
         (Some "hpkp.db"%string) (Some store_1)
       = None.
Proof.
  apply (@save_then_load_overruns reference_collaborators sample_clock None EmptyString
           "h"%char "pkp.db"%string store_2 store_1).
  - apply insert_non_empty.
  - unfold browse_order_ok. reflexivity.
  - discriminate.
  - exact store_2_order.
Defined.
